(** * budget_app: the persistence schema and its integrity rules

    The repository consists of the SQLAlchemy models under
    [backend/app/models]: [user.py], [account.py], [category.py],
    [transaction.py] and [budget.py].  The models are declarative: each
    class fixes the columns of one table, their types, defaults,
    uniqueness and foreign keys together with the [ondelete] action of
    every foreign key.  This development embeds those declarations as a
    database state (one finite map per table, keyed by the primary key)
    and gives the statements the schema allows -- INSERT, UPDATE and
    DELETE of a row -- the meaning the declared constraints give them:

    - a column of type [String(n)] stores a string of at most [n]
      characters, cuts a longer one whose excess is only spaces, and
      rejects any other;
    - a column of type [Numeric(precision=15, scale=2)] stores a finite
      value rounded to two fractional digits, rejects one that needs more
      than 15 digits, stores NaN as NaN and rejects an infinity;
    - an UPDATE brings the assigned values to their column types even
      when no row matches;
    - [unique=True] rejects a second row carrying the same value;
    - a [ForeignKey] rejects a reference to a missing row, and its
      [ondelete] action ("CASCADE" or "SET NULL") is applied to the
      referencing rows when the referenced row is deleted.

    Nothing else is enforced by the models; in particular they carry no
    CHECK constraint, no trigger and no validator. *)

From Stdlib Require Import ZArith Ascii String.
From stdpp Require Import base decidable option strings gmap fin_maps fin_sets.

Local Open Scope Z_scope.
Set Warnings "-clear-no-such-hyp".

(** ** Column types *)

(** A [UUID] is read as the number it encodes. *)
Abbreviation UUID := N (only parsing).

(** A [datetime.date] is read as its proleptic Gregorian ordinal
    ([date.toordinal()]). *)
Abbreviation date := Z (only parsing).

(** Python's [decimal.Decimal]: a finite value
    [coefficient * 10 ^ exponent], not-a-number, or an infinity.
    [Decimal("0.00")] has coefficient [0] and exponent [-2]; [NaN] is
    [Decimal("NaN")], kept as one value since the column keeps neither
    the sign nor the payload a NaN may carry. *)
Inductive Decimal :=
  | mkDecimal (coefficient exponent : Z)
  | NaN
  | Infinity (negative : bool).

#[global] Instance Decimal_eq_dec : EqDecision Decimal.
Proof. solve_decision. Defined.

Definition Decimal_0_00 : Decimal := mkDecimal 0 (-2).

(** Errors raised by the database driver: [IntegrityError] for a violated
    uniqueness or foreign-key constraint, [DataError] for a value that
    does not fit its column.  Each names the table and the column. *)
Inductive DBAPIError :=
  | IntegrityError_unique (table column : string)
  | IntegrityError_foreign_key (table column : string)
  | DataError (table column : string).

Inductive result (A : Type) :=
  | Ok (a : A)
  | Err (e : DBAPIError).
Arguments Ok {A} a.
Arguments Err {A} e.

#[global] Instance result_bind : MBind result := fun A B k r =>
  match r with
  | Ok a => k a
  | Err e => Err e
  end.

Definition require (b : bool) (e : DBAPIError) : result unit :=
  if b then Ok tt else Err e.

(** The first [n] characters of a string, and what follows them. *)
Fixpoint take_chars (n : nat) (s : string) : string :=
  match n, s with
  | S n', String c s' => String c (take_chars n' s')
  | _, _ => EmptyString
  end.

Fixpoint drop_chars (n : nat) (s : string) : string :=
  match n, s with
  | S n', String _ s' => drop_chars n' s'
  | _, _ => s
  end.

Fixpoint only_spaces (s : string) : bool :=
  match s with
  | EmptyString => true
  | String c s' => bool_decide (c = " "%char) && only_spaces s'
  end.

(** [String(n)], a VARCHAR(n) column: a string of at most [n] characters
    is stored as it is; a longer one is stored cut to [n] characters when
    everything beyond them is spaces, and is rejected otherwise.  The
    result is the stored string. *)
Definition String_n (n : nat) (table column : string) (s : string)
  : result string :=
  if bool_decide (String.length s <= n)%nat then Ok s
  else if only_spaces (drop_chars n s) then Ok (take_chars n s)
  else Err (DataError table column).

Definition opt_String_n (n : nat) (table column : string) (o : option string)
  : result (option string) :=
  match o with
  | Some s => s' ← String_n n table column s; Ok (Some s')
  | None => Ok None
  end.

(** [Numeric(precision=15, scale=2)].  A finite value is brought to
    scale 2: a coarser value is padded with zeros, a finer one is rounded
    to the nearest hundredth (ties away from zero), and the result must
    have at most 15 digits.  [hundredths] is the stored number of
    hundredths.  NaN is a value of the column type and is stored as NaN;
    an infinity exceeds every precision and is rejected by the column. *)
Definition hundredths (coefficient exponent : Z) : Z :=
  let e := exponent + 2 in
  if 0 <=? e then coefficient * 10 ^ e
  else
    let q := 10 ^ (- e) in
    Z.sgn coefficient * ((2 * Z.abs coefficient + q) / (2 * q)).

Definition Numeric_15_2 (table column : string) (d : Decimal) : result Decimal :=
  match d with
  | mkDecimal m e =>
      let h := hundredths m e in
      require (Z.abs h <? 10 ^ 15) (DataError table column) ;;
      Ok (mkDecimal h (-2))
  | NaN => Ok NaN
  | Infinity _ => Err (DataError table column)
  end.

(** A fixed-point value of [Numeric(15, 2)]: exponent -2 and at most 15
    digits. *)
Definition is_Numeric_15_2 (d : Decimal) : Prop :=
  match d with
  | mkDecimal m e => e = -2 /\ Z.abs m < 10 ^ 15
  | _ => False
  end.

(** What a [Numeric(15, 2)] column can hold: a fixed-point value or
    NaN. *)
Definition stored_Numeric_15_2 (d : Decimal) : Prop :=
  d = NaN \/ is_Numeric_15_2 d.

(** ** The models *)

(** [user.py], class [User], table "users". *)
Module User.
Record t := mk {
  email : string;            (* String(255), unique, not null *)
  hashed_password : string;  (* String(255), not null *)
  full_name : string         (* String(255), not null *)
}.
End User.

(** [account.py], enum [AccountType]. *)
Inductive AccountType :=
  | CHECKING | SAVINGS | CREDIT_CARD | CASH | INVESTMENT | LOAN | OTHER.

(** [account.py], class [Account], table "accounts". *)
Module Account.
Record t := mk {
  user_id : UUID;            (* ForeignKey users.id, CASCADE, not null *)
  name : string;             (* String(255), not null *)
  account_type : AccountType;
  balance : Decimal;         (* Numeric(15, 2), default Decimal("0.00") *)
  currency : string;         (* String(3), default "USD" *)
  is_active : bool           (* default True *)
}.

(** The keyword arguments of the constructor: a column that declares a
    default may be left out. *)
Record init := mk_init {
  init_user_id : UUID;
  init_name : string;
  init_account_type : AccountType;
  init_balance : option Decimal;
  init_currency : option string;
  init_is_active : option bool
}.

Definition default_balance : Decimal := Decimal_0_00.
Definition default_currency : string := "USD".
Definition default_is_active : bool := true.

(** The row that is flushed: every omitted column takes its default. *)
Definition new (i : init) : t :=
  mk (init_user_id i) (init_name i) (init_account_type i)
     (default default_balance (init_balance i))
     (default default_currency (init_currency i))
     (default default_is_active (init_is_active i)).
End Account.

(** [category.py], enum [CategoryType]. *)
Inductive CategoryType := CategoryType_INCOME | CategoryType_EXPENSE.

(** [category.py], class [TransactionCategory], table
    "transaction_categories". *)
Module TransactionCategory.
Record t := mk {
  user_id : option UUID;     (* ForeignKey users.id, CASCADE, nullable *)
  name : string;             (* String(100), not null *)
  category_type : CategoryType;
  color : option string;     (* String(7), nullable *)
  icon : option string;      (* String(50), nullable *)
  is_system : bool;          (* default False *)
  parent_category_id : option UUID
    (* ForeignKey transaction_categories.id, CASCADE, nullable *)
}.
End TransactionCategory.

(** [transaction.py], enum [TransactionType]. *)
Inductive TransactionType := INCOME | EXPENSE | TRANSFER.

#[global] Instance TransactionType_eq_dec : EqDecision TransactionType.
Proof. solve_decision. Defined.

(** [transaction.py], class [Transaction], table "transactions". *)
Module Transaction.
Record t := mk {
  account_id : UUID;         (* ForeignKey accounts.id, CASCADE, not null *)
  category_id : option UUID;
    (* ForeignKey transaction_categories.id, SET NULL, nullable *)
  amount : Decimal;          (* Numeric(15, 2), not null *)
  transaction_type : TransactionType;
  description : string;      (* String(255), not null *)
  transaction_date : date;
  notes : option string;     (* Text, nullable *)
  linked_transaction_id : option UUID
    (* ForeignKey transactions.id, SET NULL, nullable *)
}.

Definition set_category_id (c : option UUID) (x : t) : t :=
  mk (account_id x) c (amount x) (transaction_type x) (description x)
     (transaction_date x) (notes x) (linked_transaction_id x).

Definition set_linked_transaction_id (l : option UUID) (x : t) : t :=
  mk (account_id x) (category_id x) (amount x) (transaction_type x)
     (description x) (transaction_date x) (notes x) l.
End Transaction.

(** [budget.py], enum [BudgetPeriod]. *)
Inductive BudgetPeriod := DAILY | WEEKLY | MONTHLY | QUARTERLY | YEARLY.

(** [budget.py], class [Budget], table "budgets". *)
Module Budget.
Record t := mk {
  user_id : UUID;            (* ForeignKey users.id, CASCADE, not null *)
  category_id : UUID;
    (* ForeignKey transaction_categories.id, CASCADE, not null *)
  amount : Decimal;          (* Numeric(15, 2), not null *)
  period : BudgetPeriod;
  start_date : date;
  end_date : option date     (* nullable: open-ended *)
}.

Definition set_amount (a : Decimal) (b : t) : t :=
  mk (user_id b) (category_id b) a (period b) (start_date b) (end_date b).
End Budget.

(** ** The database state *)

(** Modelled from the spec: the [id] primary key that [UUIDMixin] of
    [base.py] adds to every model ([base.py] is not among the sources; the
    spec gives each entity a "unique identifier").  It is the key of the
    table's map, so two rows of one table never share it.  The timestamps
    of [TimestampMixin] take part in no constraint and are left out. *)
Record DB := mkDB {
  users : gmap UUID User.t;
  accounts : gmap UUID Account.t;
  transaction_categories : gmap UUID TransactionCategory.t;
  transactions : gmap UUID Transaction.t;
  budgets : gmap UUID Budget.t
}.

Definition empty_db : DB := mkDB ∅ ∅ ∅ ∅ ∅.

(** ** Constraint checks *)

(** The primary key of a new row must be unused. *)
Definition primary_key {A} (table : string) (m : gmap UUID A) (id : UUID)
  : result unit :=
  require (bool_decide (m !! id = None)) (IntegrityError_unique table "id").

(** A foreign key must name a row of the referenced table. *)
Definition references {A} (table column : string) (m : gmap UUID A) (k : UUID)
  : result unit :=
  require (bool_decide (is_Some (m !! k))) (IntegrityError_foreign_key table column).

(** A nullable foreign key may also be NULL. *)
Definition opt_references {A} (table column : string) (m : gmap UUID A)
    (o : option UUID) : result unit :=
  match o with
  | Some k => references table column m k
  | None => Ok tt
  end.

(** ** [users] *)

(** The row as its columns store it. *)
Definition coerce_user (u : User.t) : result User.t :=
  e ← String_n 255 "users" "email" (User.email u);
  h ← String_n 255 "users" "hashed_password" (User.hashed_password u);
  f ← String_n 255 "users" "full_name" (User.full_name u);
  Ok (User.mk e h f).

(** [unique=True] on [email]: no other row carries the same string.  The
    column declares no collation and no case folding, so the comparison is
    equality of strings. *)
Definition email_unique (m : gmap UUID User.t) (id : UUID) (u : User.t) : Prop :=
  map_Forall (fun k r => k = id \/ User.email r <> User.email u) m.

Definition constraints_user (db : DB) (id : UUID) (u : User.t) : result unit :=
  require (bool_decide (email_unique (users db) id u))
          (IntegrityError_unique "users" "email").

Definition put_user (db : DB) (id : UUID) (u : User.t) : DB :=
  mkDB (<[id := u]> (users db)) (accounts db) (transaction_categories db)
       (transactions db) (budgets db).

Definition insert_user (db : DB) (id : UUID) (u : User.t) : result DB :=
  u' ← coerce_user u;
  primary_key "users" (users db) id ;;
  constraints_user db id u' ;;
  Ok (put_user db id u').

(** The assigned values are brought to their column types whether or not
    a row matches; an UPDATE of a row that does not exist then changes
    nothing, and no constraint is checked. *)
Definition update_user (db : DB) (id : UUID) (u : User.t) : result DB :=
  u' ← coerce_user u;
  if bool_decide (is_Some (users db !! id)) then
    constraints_user db id u' ;;
    Ok (put_user db id u')
  else Ok db.

(** ** [accounts] *)

Definition coerce_account (a : Account.t) : result Account.t :=
  n ← String_n 255 "accounts" "name" (Account.name a);
  b ← Numeric_15_2 "accounts" "balance" (Account.balance a);
  c ← String_n 3 "accounts" "currency" (Account.currency a);
  Ok (Account.mk (Account.user_id a) n (Account.account_type a)
                 b c (Account.is_active a)).

Definition constraints_account (db : DB) (a : Account.t) : result unit :=
  references "accounts" "user_id" (users db) (Account.user_id a).

Definition put_account (db : DB) (id : UUID) (a : Account.t) : DB :=
  mkDB (users db) (<[id := a]> (accounts db)) (transaction_categories db)
       (transactions db) (budgets db).

Definition insert_account (db : DB) (id : UUID) (a : Account.t) : result DB :=
  a' ← coerce_account a;
  primary_key "accounts" (accounts db) id ;;
  constraints_account db a' ;;
  Ok (put_account db id a').

Definition update_account (db : DB) (id : UUID) (a : Account.t) : result DB :=
  a' ← coerce_account a;
  if bool_decide (is_Some (accounts db !! id)) then
    constraints_account db a' ;;
    Ok (put_account db id a')
  else Ok db.

(** ** [transaction_categories] *)

Definition coerce_category (c : TransactionCategory.t)
  : result TransactionCategory.t :=
  n ← String_n 100 "transaction_categories" "name" (TransactionCategory.name c);
  k ← opt_String_n 7 "transaction_categories" "color" (TransactionCategory.color c);
  i ← opt_String_n 50 "transaction_categories" "icon" (TransactionCategory.icon c);
  Ok (TransactionCategory.mk (TransactionCategory.user_id c) n
        (TransactionCategory.category_type c) k i
        (TransactionCategory.is_system c)
        (TransactionCategory.parent_category_id c)).

Definition put_category (db : DB) (id : UUID) (c : TransactionCategory.t) : DB :=
  mkDB (users db) (accounts db) (<[id := c]> (transaction_categories db))
       (transactions db) (budgets db).

(** Foreign keys are checked once the statement has run, so the
    self-reference [parent_category_id] is looked up in the table that
    already holds the written row. *)
Definition constraints_category (db : DB) (id : UUID) (c : TransactionCategory.t)
  : result unit :=
  opt_references "transaction_categories" "user_id" (users db)
                 (TransactionCategory.user_id c) ;;
  opt_references "transaction_categories" "parent_category_id"
                 (<[id := c]> (transaction_categories db))
                 (TransactionCategory.parent_category_id c).

Definition insert_category (db : DB) (id : UUID) (c : TransactionCategory.t)
  : result DB :=
  c' ← coerce_category c;
  primary_key "transaction_categories" (transaction_categories db) id ;;
  constraints_category db id c' ;;
  Ok (put_category db id c').

Definition update_category (db : DB) (id : UUID) (c : TransactionCategory.t)
  : result DB :=
  c' ← coerce_category c;
  if bool_decide (is_Some (transaction_categories db !! id)) then
    constraints_category db id c' ;;
    Ok (put_category db id c')
  else Ok db.

(** ** [transactions] *)

Definition coerce_transaction (x : Transaction.t) : result Transaction.t :=
  a ← Numeric_15_2 "transactions" "amount" (Transaction.amount x);
  d ← String_n 255 "transactions" "description" (Transaction.description x);
  Ok (Transaction.mk (Transaction.account_id x) (Transaction.category_id x) a
        (Transaction.transaction_type x) d (Transaction.transaction_date x)
        (Transaction.notes x) (Transaction.linked_transaction_id x)).

Definition put_transaction (db : DB) (id : UUID) (x : Transaction.t) : DB :=
  mkDB (users db) (accounts db) (transaction_categories db)
       (<[id := x]> (transactions db)) (budgets db).

Definition constraints_transaction (db : DB) (id : UUID) (x : Transaction.t)
  : result unit :=
  references "transactions" "account_id" (accounts db) (Transaction.account_id x) ;;
  opt_references "transactions" "category_id" (transaction_categories db)
                 (Transaction.category_id x) ;;
  opt_references "transactions" "linked_transaction_id"
                 (<[id := x]> (transactions db))
                 (Transaction.linked_transaction_id x).

Definition insert_transaction (db : DB) (id : UUID) (x : Transaction.t)
  : result DB :=
  x' ← coerce_transaction x;
  primary_key "transactions" (transactions db) id ;;
  constraints_transaction db id x' ;;
  Ok (put_transaction db id x').

Definition update_transaction (db : DB) (id : UUID) (x : Transaction.t)
  : result DB :=
  x' ← coerce_transaction x;
  if bool_decide (is_Some (transactions db !! id)) then
    constraints_transaction db id x' ;;
    Ok (put_transaction db id x')
  else Ok db.

(** ** [budgets] *)

Definition coerce_budget (b : Budget.t) : result Budget.t :=
  a ← Numeric_15_2 "budgets" "amount" (Budget.amount b);
  Ok (Budget.set_amount a b).

Definition put_budget (db : DB) (id : UUID) (b : Budget.t) : DB :=
  mkDB (users db) (accounts db) (transaction_categories db)
       (transactions db) (<[id := b]> (budgets db)).

Definition constraints_budget (db : DB) (b : Budget.t) : result unit :=
  references "budgets" "user_id" (users db) (Budget.user_id b) ;;
  references "budgets" "category_id" (transaction_categories db)
             (Budget.category_id b).

Definition insert_budget (db : DB) (id : UUID) (b : Budget.t) : result DB :=
  b' ← coerce_budget b;
  primary_key "budgets" (budgets db) id ;;
  constraints_budget db b' ;;
  Ok (put_budget db id b').

Definition update_budget (db : DB) (id : UUID) (b : Budget.t) : result DB :=
  b' ← coerce_budget b;
  if bool_decide (is_Some (budgets db !! id)) then
    constraints_budget db b' ;;
    Ok (put_budget db id b')
  else Ok db.

(** ** DELETE and the [ondelete] actions *)

(** A nullable foreign key points into the set [S] of deleted rows. *)
Definition refers_in (S : gset UUID) (o : option UUID) : Prop :=
  match o with
  | Some k => k ∈ S
  | None => False
  end.

#[global] Instance refers_in_dec S o : Decision (refers_in S o).
Proof. destruct o; simpl; apply _. Defined.

(** [parent_category_id] is ON DELETE CASCADE: the categories whose parent
    is in [S]. *)
Definition subcategories_of (cats : gmap UUID TransactionCategory.t)
    (S : gset UUID) : gset UUID :=
  dom (filter (fun kv => refers_in S (TransactionCategory.parent_category_id kv.2))
              cats).

(** The cascade follows the self-reference until no further row is hit;
    each round that adds nothing ends it, and a round can add at most the
    rows of the table, so as many rounds as there are rows suffice. *)
Fixpoint cascade_categories (fuel : nat) (cats : gmap UUID TransactionCategory.t)
    (S : gset UUID) : gset UUID :=
  match fuel with
  | O => S
  | Datatypes.S n => cascade_categories n cats (S ∪ subcategories_of cats S)
  end.

Definition deleted_categories (cats : gmap UUID TransactionCategory.t)
    (S : gset UUID) : gset UUID :=
  cascade_categories (size cats) cats S.

(** The two foreign keys of [transactions] that are ON DELETE SET NULL:
    [category_id] and [linked_transaction_id]. *)
Definition set_null (dC dT : gset UUID) (x : Transaction.t) : Transaction.t :=
  Transaction.mk
    (Transaction.account_id x)
    (if decide (refers_in dC (Transaction.category_id x)) then None
     else Transaction.category_id x)
    (Transaction.amount x) (Transaction.transaction_type x)
    (Transaction.description x) (Transaction.transaction_date x)
    (Transaction.notes x)
    (if decide (refers_in dT (Transaction.linked_transaction_id x)) then None
     else Transaction.linked_transaction_id x).

(** Deleting the users [dU], the accounts [dA0], the categories [dC0], the
    transactions [dT0] and the budgets [dB0], with every [ondelete] action
    of the five models:
    - [accounts.user_id], [transaction_categories.user_id],
      [budgets.user_id]: CASCADE;
    - [transaction_categories.parent_category_id]: CASCADE;
    - [transactions.account_id]: CASCADE;
    - [budgets.category_id]: CASCADE;
    - [transactions.category_id], [transactions.linked_transaction_id]:
      SET NULL. *)
Definition cascade_delete (db : DB) (dU dA0 dC0 dT0 dB0 : gset UUID) : DB :=
  let dA := dA0 ∪ dom (filter (fun kv => Account.user_id kv.2 ∈ dU) (accounts db)) in
  let dC :=
    deleted_categories (transaction_categories db)
      (dC0 ∪ dom (filter (fun kv => refers_in dU (TransactionCategory.user_id kv.2))
                         (transaction_categories db))) in
  let dT :=
    dT0 ∪ dom (filter (fun kv => Transaction.account_id kv.2 ∈ dA) (transactions db)) in
  let dB :=
    dB0 ∪ dom (filter (fun kv => Budget.user_id kv.2 ∈ dU \/ Budget.category_id kv.2 ∈ dC)
                      (budgets db)) in
  mkDB (filter (fun kv => kv.1 ∉ dU) (users db))
       (filter (fun kv => kv.1 ∉ dA) (accounts db))
       (filter (fun kv => kv.1 ∉ dC) (transaction_categories db))
       (set_null dC dT <$> filter (fun kv => kv.1 ∉ dT) (transactions db))
       (filter (fun kv => kv.1 ∉ dB) (budgets db)).

Definition delete_user (db : DB) (id : UUID) : DB :=
  cascade_delete db {[id]} ∅ ∅ ∅ ∅.

Definition delete_account (db : DB) (id : UUID) : DB :=
  cascade_delete db ∅ {[id]} ∅ ∅ ∅.

Definition delete_category (db : DB) (id : UUID) : DB :=
  cascade_delete db ∅ ∅ {[id]} ∅ ∅.

Definition delete_transaction (db : DB) (id : UUID) : DB :=
  cascade_delete db ∅ ∅ ∅ {[id]} ∅.

Definition delete_budget (db : DB) (id : UUID) : DB :=
  cascade_delete db ∅ ∅ ∅ ∅ {[id]}.

(** ** Statements and reachable states *)

Inductive statement :=
  | InsertUser (id : UUID) (u : User.t)
  | UpdateUser (id : UUID) (u : User.t)
  | DeleteUser (id : UUID)
  | InsertAccount (id : UUID) (a : Account.t)
  | UpdateAccount (id : UUID) (a : Account.t)
  | DeleteAccount (id : UUID)
  | InsertCategory (id : UUID) (c : TransactionCategory.t)
  | UpdateCategory (id : UUID) (c : TransactionCategory.t)
  | DeleteCategory (id : UUID)
  | InsertTransaction (id : UUID) (x : Transaction.t)
  | UpdateTransaction (id : UUID) (x : Transaction.t)
  | DeleteTransaction (id : UUID)
  | InsertBudget (id : UUID) (b : Budget.t)
  | UpdateBudget (id : UUID) (b : Budget.t)
  | DeleteBudget (id : UUID).

Definition execute (db : DB) (s : statement) : result DB :=
  match s with
  | InsertUser id u => insert_user db id u
  | UpdateUser id u => update_user db id u
  | DeleteUser id => Ok (delete_user db id)
  | InsertAccount id a => insert_account db id a
  | UpdateAccount id a => update_account db id a
  | DeleteAccount id => Ok (delete_account db id)
  | InsertCategory id c => insert_category db id c
  | UpdateCategory id c => update_category db id c
  | DeleteCategory id => Ok (delete_category db id)
  | InsertTransaction id x => insert_transaction db id x
  | UpdateTransaction id x => update_transaction db id x
  | DeleteTransaction id => Ok (delete_transaction db id)
  | InsertBudget id b => insert_budget db id b
  | UpdateBudget id b => update_budget db id b
  | DeleteBudget id => Ok (delete_budget db id)
  end.

(** Statements run one after the other; the first error aborts. *)
Fixpoint run (db : DB) (ss : list statement) : result DB :=
  match ss with
  | [] => Ok db
  | s :: ss' => db' ← execute db s; run db' ss'
  end.

(** A state is reachable when some sequence of accepted statements
    produces it from the empty database. *)
Definition reachable (db : DB) : Prop :=
  exists ss, run empty_db ss = Ok db.

(** "[x] is [c] or one of its subcategories, at any depth". *)
Inductive descends (cats : gmap UUID TransactionCategory.t) (c : UUID)
  : UUID -> Prop :=
  | descends_refl : descends cats c c
  | descends_step x r p :
      cats !! x = Some r ->
      TransactionCategory.parent_category_id r = Some p ->
      descends cats c p -> descends cats c x.

(** * The invariant the schema maintains *)

(** Every foreign key names an existing row, e-mail addresses are
    pairwise different, and every monetary column holds a value of
    [Numeric(15, 2)]: a fixed-point value or NaN. *)
Record consistent (db : DB) : Prop := mk_consistent {
  users_email_unique : forall i j u v,
    users db !! i = Some u -> users db !! j = Some v ->
    User.email u = User.email v -> i = j;
  accounts_user_fk : forall i a,
    accounts db !! i = Some a -> is_Some (users db !! Account.user_id a);
  accounts_balance_numeric : forall i a,
    accounts db !! i = Some a -> stored_Numeric_15_2 (Account.balance a);
  categories_user_fk : forall i c u,
    transaction_categories db !! i = Some c ->
    TransactionCategory.user_id c = Some u -> is_Some (users db !! u);
  categories_parent_fk : forall i c p,
    transaction_categories db !! i = Some c ->
    TransactionCategory.parent_category_id c = Some p ->
    is_Some (transaction_categories db !! p);
  transactions_account_fk : forall i x,
    transactions db !! i = Some x ->
    is_Some (accounts db !! Transaction.account_id x);
  transactions_category_fk : forall i x c,
    transactions db !! i = Some x -> Transaction.category_id x = Some c ->
    is_Some (transaction_categories db !! c);
  transactions_linked_fk : forall i x l,
    transactions db !! i = Some x ->
    Transaction.linked_transaction_id x = Some l ->
    is_Some (transactions db !! l);
  transactions_amount_numeric : forall i x,
    transactions db !! i = Some x -> stored_Numeric_15_2 (Transaction.amount x);
  budgets_user_fk : forall i b,
    budgets db !! i = Some b -> is_Some (users db !! Budget.user_id b);
  budgets_category_fk : forall i b,
    budgets db !! i = Some b ->
    is_Some (transaction_categories db !! Budget.category_id b);
  budgets_amount_numeric : forall i b,
    budgets db !! i = Some b -> stored_Numeric_15_2 (Budget.amount b)
}.


(** * The vocabulary of the specification

    The predicates below state what the specification asks of a state;
    they are not part of the models. *)

(** ** Transfers (I3) *)

Definition negated (d : Decimal) : Decimal :=
  match d with
  | mkDecimal m e => mkDecimal (- m) e
  | NaN => NaN
  | Infinity negative => Infinity (negb negative)
  end.

(** The transaction [x] stored under [i] has a link partner: the linked
    row exists, is a transfer, sits on another account, carries the
    opposite amount and links back. *)
Definition has_link_partner (db : DB) (i : UUID) (x : Transaction.t) : Prop :=
  exists l y,
    Transaction.linked_transaction_id x = Some l /\
    transactions db !! l = Some y /\
    Transaction.transaction_type y = TRANSFER /\
    Transaction.account_id y <> Transaction.account_id x /\
    Transaction.amount y = negated (Transaction.amount x) /\
    Transaction.linked_transaction_id y = Some i.

Definition transfers_paired (db : DB) : Prop :=
  forall i x,
    transactions db !! i = Some x ->
    Transaction.transaction_type x = TRANSFER ->
    has_link_partner db i x.

(** ** The category tree (I2) *)

(** The category [c] appears among its own ancestors. *)
Definition own_ancestor (cats : gmap UUID TransactionCategory.t) (c : UUID) : Prop :=
  exists r p,
    cats !! c = Some r /\
    TransactionCategory.parent_category_id r = Some p /\
    descends cats c p.

(** Parent and child share the owner scope: both system categories, or
    both of the same user. *)
Definition same_owner_scope (cats : gmap UUID TransactionCategory.t) (c : UUID)
  : Prop :=
  forall r p q,
    cats !! c = Some r ->
    TransactionCategory.parent_category_id r = Some p ->
    cats !! p = Some q ->
    TransactionCategory.user_id r = TransactionCategory.user_id q.

Definition category_tree_ok (db : DB) : Prop :=
  forall c,
    ~ own_ancestor (transaction_categories db) c /\
    same_owner_scope (transaction_categories db) c.

(** ** Budget windows (I5) *)

(** The window of a budget is [start_date, end_date), without an upper
    end when [end_date] is absent. *)
Definition starts_before_end (d : date) (e : option date) : bool :=
  match e with
  | Some e' => d <? e'
  | None => true
  end.

Definition windows_overlap (a b : Budget.t) : bool :=
  starts_before_end (Budget.start_date a) (Budget.end_date b)
  && starts_before_end (Budget.start_date b) (Budget.end_date a).

Definition budgets_disjoint (db : DB) : Prop :=
  forall i j a b,
    budgets db !! i = Some a -> budgets db !! j = Some b -> i <> j ->
    Budget.user_id a = Budget.user_id b ->
    Budget.category_id a = Budget.category_id b ->
    windows_overlap a b = false.

(** ** E-mail addresses (4.1) *)

Definition DuplicateEmail : DBAPIError := IntegrityError_unique "users" "email".

(** Case-insensitive comparison: the strings agree once the letters A-Z
    are lowered. *)
Definition lower_ascii (c : ascii) : ascii :=
  let n := nat_of_ascii c in
  if ((65 <=? n) && (n <=? 90))%nat then ascii_of_nat (n + 32) else c.

Fixpoint lower (s : string) : string :=
  match s with
  | EmptyString => EmptyString
  | String c s' => String (lower_ascii c) (lower s')
  end.

Definition same_email_ignoring_case (a b : string) : Prop := lower a = lower b.

(** * Sample states *)

(** A user with two accounts and a transfer of 50.00 between them, written
    the way a transfer has to be written under the schema: the first leg
    is inserted unlinked, the second leg links to it, the first leg is
    then linked back, and the two balances are set. *)
Definition alice : User.t := User.mk "alice@example.com" "hash" "Alice".

Definition account_A : Account.t :=
  Account.new (Account.mk_init 1%N "A" CHECKING None None None).
Definition account_B : Account.t :=
  Account.new (Account.mk_init 1%N "B" SAVINGS None None None).

Definition leg_A (l : option UUID) : Transaction.t :=
  Transaction.mk 5%N None (mkDecimal (-5000) (-2)) TRANSFER "rent" 738886 None l.
Definition leg_B (l : option UUID) : Transaction.t :=
  Transaction.mk 6%N None (mkDecimal 5000 (-2)) TRANSFER "rent" 738886 None l.

Definition with_balance (b : Decimal) (a : Account.t) : Account.t :=
  Account.mk (Account.user_id a) (Account.name a) (Account.account_type a) b
             (Account.currency a) (Account.is_active a).

Definition transfer_statements : list statement :=
  [ InsertUser 1%N alice;
    InsertAccount 5%N account_A;
    InsertAccount 6%N account_B;
    InsertTransaction 20%N (leg_A None);
    InsertTransaction 21%N (leg_B (Some 20%N));
    UpdateTransaction 20%N (leg_A (Some 21%N));
    UpdateAccount 5%N (with_balance (mkDecimal (-5000) (-2)) account_A);
    UpdateAccount 6%N (with_balance (mkDecimal 5000 (-2)) account_B) ].

Definition state_of (ss : list statement) : DB :=
  match run empty_db ss with
  | Ok db => db
  | Err _ => empty_db
  end.

Definition transfer_db : DB := state_of transfer_statements.

(** Categories and budgets: "Groceries" of the user with the system
    category "Food" as parent, and a monthly budget on it. *)
Definition groceries (p : option UUID) : TransactionCategory.t :=
  TransactionCategory.mk (Some 1%N) "Groceries" CategoryType_EXPENSE None None
                         false p.
Definition food (p : option UUID) : TransactionCategory.t :=
  TransactionCategory.mk None "Food" CategoryType_EXPENSE None None true p.

Definition groceries_budget : Budget.t :=
  Budget.mk 1%N 10%N (mkDecimal 40000 (-2)) MONTHLY 738886 None.

Definition purchase : Transaction.t :=
  Transaction.mk 5%N (Some 10%N) (mkDecimal 12000 (-2)) EXPENSE "market" 738900
                 None None.

Definition budget_statements : list statement :=
  [ InsertUser 1%N alice;
    InsertAccount 5%N account_A;
    InsertCategory 11%N (food None);
    InsertCategory 10%N (groceries (Some 11%N));
    InsertTransaction 20%N purchase;
    InsertBudget 30%N groceries_budget ].

Definition budget_db : DB := state_of budget_statements.

(** A transfer leg written alone. *)
Definition lone_leg_statements : list statement :=
  [ InsertUser 1%N alice;
    InsertAccount 5%N account_A;
    InsertTransaction 20%N (leg_A None) ].

Definition lone_leg_db : DB := state_of lone_leg_statements.

(** A transfer of -50.00 linked to an income of 30.00 on the same account
    that has no link of its own. *)
Definition salary : Transaction.t :=
  Transaction.mk 5%N None (mkDecimal 3000 (-2)) INCOME "salary" 738886 None None.

Definition mismatched_statements : list statement :=
  [ InsertUser 1%N alice;
    InsertAccount 5%N account_A;
    InsertTransaction 22%N salary;
    InsertTransaction 20%N (leg_A (Some 22%N)) ].

Definition mismatched_db : DB := state_of mismatched_statements.

(** The user's "Groceries" under the system category "Food", then "Food"
    reparented under "Groceries". *)
Definition reparent_statements : list statement :=
  [ InsertUser 1%N alice;
    InsertCategory 11%N (food None);
    InsertCategory 10%N (groceries (Some 11%N));
    UpdateCategory 11%N (food (Some 10%N)) ].

Definition reparent_db : DB := state_of reparent_statements.

(** The same budget entered twice. *)
Definition twice_statements : list statement :=
  budget_statements ++ [ InsertBudget 31%N groceries_budget ].

Definition twice_db : DB := state_of twice_statements.

(** One registered user, and a second sign-up whose address differs in
    letter case only. *)
Definition one_user_db : DB := state_of [ InsertUser 1%N alice ].

Definition alice_again : User.t := User.mk "Alice@Example.com" "hash2" "Alice".

(** * The enumerations

    Each enumeration of the models derives from [str] and [Enum]: a member
    has a string value, and calling the class with a string returns the
    first member, in definition order, that carries this value ([None]
    stands for the [ValueError] raised when there is none). *)

Definition AccountType_members : list AccountType :=
  [CHECKING; SAVINGS; CREDIT_CARD; CASH; INVESTMENT; LOAN; OTHER].

Definition AccountType_value (t : AccountType) : string :=
  match t with
  | CHECKING => "checking"
  | SAVINGS => "savings"
  | CREDIT_CARD => "credit_card"
  | CASH => "cash"
  | INVESTMENT => "investment"
  | LOAN => "loan"
  | OTHER => "other"
  end.

Definition CategoryType_members : list CategoryType :=
  [CategoryType_INCOME; CategoryType_EXPENSE].

Definition CategoryType_value (t : CategoryType) : string :=
  match t with
  | CategoryType_INCOME => "income"
  | CategoryType_EXPENSE => "expense"
  end.

Definition TransactionType_members : list TransactionType :=
  [INCOME; EXPENSE; TRANSFER].

Definition TransactionType_value (t : TransactionType) : string :=
  match t with
  | INCOME => "income"
  | EXPENSE => "expense"
  | TRANSFER => "transfer"
  end.

Definition BudgetPeriod_members : list BudgetPeriod :=
  [DAILY; WEEKLY; MONTHLY; QUARTERLY; YEARLY].

Definition BudgetPeriod_value (t : BudgetPeriod) : string :=
  match t with
  | DAILY => "daily"
  | WEEKLY => "weekly"
  | MONTHLY => "monthly"
  | QUARTERLY => "quarterly"
  | YEARLY => "yearly"
  end.

(** [cls(s)]: lookup of a member by value. *)
Definition by_value {E} (members : list E) (value : E -> string) (s : string)
  : option E :=
  List.find (fun m => bool_decide (value m = s)) members.

Definition AccountType_of_value : string -> option AccountType :=
  by_value AccountType_members AccountType_value.
Definition CategoryType_of_value : string -> option CategoryType :=
  by_value CategoryType_members CategoryType_value.
Definition TransactionType_of_value : string -> option TransactionType :=
  by_value TransactionType_members TransactionType_value.
Definition BudgetPeriod_of_value : string -> option BudgetPeriod :=
  by_value BudgetPeriod_members BudgetPeriod_value.

(** The statements that delete the row with key [id] of one table. *)
Definition deletes (id : UUID) : list statement :=
  [DeleteUser id; DeleteAccount id; DeleteCategory id; DeleteTransaction id;
   DeleteBudget id].

(** * Column lengths *)

Definition fits (n : nat) (s : string) : Prop := (String.length s <= n)%nat.

Definition opt_fits (n : nat) (o : option string) : Prop :=
  forall s, o = Some s -> fits n s.

(** Every stored string is within the length its column declares. *)
Record strings_fit (db : DB) : Prop := mk_strings_fit {
  users_fit : forall i u, users db !! i = Some u ->
    fits 255 (User.email u) /\ fits 255 (User.hashed_password u) /\
    fits 255 (User.full_name u);
  accounts_fit : forall i a, accounts db !! i = Some a ->
    fits 255 (Account.name a) /\ fits 3 (Account.currency a);
  categories_fit : forall i c, transaction_categories db !! i = Some c ->
    fits 100 (TransactionCategory.name c) /\
    opt_fits 7 (TransactionCategory.color c) /\
    opt_fits 50 (TransactionCategory.icon c);
  transactions_fit : forall i x, transactions db !! i = Some x ->
    fits 255 (Transaction.description x)
}.

(** An account, a purchase and a budget whose monetary value is NaN. *)
Definition purchase_nan : Transaction.t :=
  Transaction.mk 5%N (Some 10%N) NaN EXPENSE "market" 738900 None None.

Definition budget_nan : Budget.t :=
  Budget.mk 1%N 10%N NaN MONTHLY 738886 None.

Definition nan_statements : list statement :=
  [ InsertUser 1%N alice;
    InsertAccount 5%N (with_balance NaN account_A);
    InsertCategory 10%N (groceries None);
    InsertTransaction 20%N purchase_nan;
    InsertBudget 30%N budget_nan ].

Definition nan_db : DB := state_of nan_statements.

(** An account created with a balance of 5.00 and the active flag off. *)
Definition opened_with_balance : Account.init :=
  Account.mk_init 1%N "B" SAVINGS (Some (mkDecimal 500 (-2))) None (Some false).
(** * Properties of the cascade *)

Section cascade.
Variable cats : gmap UUID TransactionCategory.t.

Lemma elem_of_subcategories_of (S : gset UUID) (x : UUID) :
  x ∈ subcategories_of cats S <->
  exists c p, cats !! x = Some c /\
              TransactionCategory.parent_category_id c = Some p /\ p ∈ S.
Proof.
  unfold subcategories_of. rewrite elem_of_dom. split.
  - intros [c Hc]. apply map_lookup_filter_Some in Hc as [Hc Hp]. simpl in Hp.
    destruct (TransactionCategory.parent_category_id c) as [p|] eqn:E; [|done].
    by exists c, p.
  - intros (c & p & Hc & Hp & Hin). exists c.
    apply map_lookup_filter_Some. split; [done|]. simpl. by rewrite Hp.
Qed.

Lemma subcategories_of_dom (S : gset UUID) : subcategories_of cats S ⊆ dom cats.
Proof. apply dom_filter_subseteq. Qed.

Lemma cascade_categories_incl n (S : gset UUID) : S ⊆ cascade_categories n cats S.
Proof.
  revert S. induction n as [|n IH]; intros S; simpl; [done|].
  etrans; [|apply IH]. set_solver.
Qed.

Lemma cascade_categories_added n (S : gset UUID) :
  cascade_categories n cats S ∖ S ⊆ dom cats.
Proof.
  revert S. induction n as [|n IH]; intros S; simpl; [set_solver|].
  pose proof (IH (S ∪ subcategories_of cats S)) as H.
  pose proof (subcategories_of_dom S). set_solver.
Qed.

Lemma cascade_categories_fix n (S : gset UUID) :
  subcategories_of cats S ⊆ S -> cascade_categories n cats S = S.
Proof.
  intros H. induction n as [|n IH]; simpl; [done|].
  by replace (S ∪ subcategories_of cats S) with S by set_solver.
Qed.

(** Either the cascade has come to rest, or every round so far has hit a
    new row. *)
Lemma cascade_categories_progress n (S : gset UUID) :
  subcategories_of cats (cascade_categories n cats S) ⊆ cascade_categories n cats S
  \/ (n <= size (cascade_categories n cats S ∖ S))%nat.
Proof.
  revert S. induction n as [|n IH]; intros S; simpl; [right; lia|].
  destruct (decide (subcategories_of cats S ⊆ S)) as [Hfix|Hgrow].
  - left. replace (S ∪ subcategories_of cats S) with S by set_solver.
    by rewrite cascade_categories_fix.
  - destruct (IH (S ∪ subcategories_of cats S)) as [Hc|Hsz]; [by left|right].
    set (S' := S ∪ subcategories_of cats S) in *.
    assert (S ⊂ S') as Hlt.
    { split; [set_solver|]. intros Hle. apply Hgrow. set_solver. }
    apply subset_size in Hlt.
    pose proof (cascade_categories_incl n S') as Hincl.
    rewrite size_difference in Hsz by done.
    rewrite size_difference by set_solver.
    pose proof (subseteq_size _ _ Hincl). lia.
Qed.

(** After as many rounds as the table has rows the cascade is closed:
    no remaining category has a deleted parent. *)
Lemma deleted_categories_closed (S : gset UUID) :
  subcategories_of cats (deleted_categories cats S) ⊆ deleted_categories cats S.
Proof.
  unfold deleted_categories.
  destruct (cascade_categories_progress (size cats) S) as [Hc|Hsz]; [done|].
  pose proof (cascade_categories_added (size cats) S) as Hdom.
  assert (cascade_categories (size cats) cats S ∖ S ≡ dom cats) as Heq.
  { apply set_subseteq_size_equiv; [done|]. by rewrite size_dom. }
  etrans; [apply subcategories_of_dom|]. rewrite <- Heq. set_solver.
Qed.

Lemma deleted_categories_incl (S : gset UUID) : S ⊆ deleted_categories cats S.
Proof. apply cascade_categories_incl. Qed.

Lemma descends_deleted (S : gset UUID) c x :
  c ∈ S -> descends cats c x -> x ∈ deleted_categories cats S.
Proof.
  intros Hc Hd. induction Hd as [|x r p Hx Hp _ IH].
  - by apply deleted_categories_incl.
  - apply deleted_categories_closed, elem_of_subcategories_of. eauto.
Qed.

(** Conversely the cascade deletes nothing else. *)
Lemma cascade_categories_descends n (S : gset UUID) x :
  x ∈ cascade_categories n cats S -> exists c, c ∈ S /\ descends cats c x.
Proof.
  revert S. induction n as [|n IH]; intros S; simpl.
  - intros Hx. exists x. split; [done|constructor].
  - intros Hx. apply IH in Hx as (c & Hc & Hd).
    apply elem_of_union in Hc as [Hc|Hc]; [by eauto|].
    apply elem_of_subcategories_of in Hc as (r & p & Hr & Hp & HpS).
    exists p. split; [done|].
    clear -Hd Hr Hp. induction Hd as [|y r' q Hy Hq _ IHd].
    + econstructor; eauto. constructor.
    + econstructor; eauto.
Qed.
End cascade.

(** ** Reading the checks back *)

Lemma bind_Ok {A B} (r : result A) (k : A -> result B) (b : B) :
  r ≫= k = Ok b <-> exists a, r = Ok a /\ k a = Ok b.
Proof.
  destruct r as [a|e]; simpl; split.
  - intros H. by exists a.
  - by intros (a' & [= <-] & H).
  - done.
  - by intros (a' & [=] & _).
Qed.

Lemma require_Ok (b : bool) e u : require b e = Ok u <-> b = true.
Proof. destruct b, u; simpl; split; congruence. Qed.

Lemma length_take_chars n s : (String.length (take_chars n s) <= n)%nat.
Proof.
  revert s. induction n as [|n IH]; intros [|c s]; simpl; try lia.
  specialize (IH s). lia.
Qed.

(** A string within the length is stored as it is. *)
Lemma String_n_fits n t c s : fits n s -> String_n n t c s = Ok s.
Proof. intros H. unfold String_n. by rewrite bool_decide_eq_true_2. Qed.

(** What is stored is within the length, and is the given string when
    that one is. *)
Lemma String_n_Ok n t c s s' :
  String_n n t c s = Ok s' -> fits n s' /\ (fits n s -> s' = s).
Proof.
  unfold String_n, fits. case_bool_decide as Hl.
  - intros [= <-]. done.
  - destruct (only_spaces (drop_chars n s)); [|done]. intros [= <-].
    split; [apply length_take_chars|done].
Qed.

Lemma primary_key_Ok {A} t (m : gmap UUID A) id u :
  primary_key t m id = Ok u <-> m !! id = None.
Proof. unfold primary_key. by rewrite require_Ok, bool_decide_eq_true. Qed.

Lemma references_Ok {A} t c (m : gmap UUID A) k u :
  references t c m k = Ok u <-> is_Some (m !! k).
Proof. unfold references. by rewrite require_Ok, bool_decide_eq_true. Qed.

Lemma opt_references_Ok {A} t c (m : gmap UUID A) o u :
  opt_references t c m o = Ok u <-> forall k, o = Some k -> is_Some (m !! k).
Proof.
  destruct o as [k|]; simpl.
  - rewrite references_Ok. split; [by intros H ? [= <-]|eauto].
  - destruct u. split; [by intros|done].
Qed.

Lemma Numeric_15_2_Ok t c m e d' :
  Numeric_15_2 t c (mkDecimal m e) = Ok d' <->
  Z.abs (hundredths m e) < 10 ^ 15 /\ d' = mkDecimal (hundredths m e) (-2).
Proof.
  unfold Numeric_15_2. rewrite bind_Ok. split.
  - intros (u & Hr & [= <-]). apply require_Ok, Z.ltb_lt in Hr. done.
  - intros [Hlt ->]. exists tt. split; [|done]. by apply require_Ok, Z.ltb_lt.
Qed.

(** What the column accepts it stores as a value of its type. *)
Lemma Numeric_15_2_is_Numeric t c d d' :
  Numeric_15_2 t c d = Ok d' -> stored_Numeric_15_2 d'.
Proof.
  destruct d as [m e| |s]; simpl.
  - intros H. apply (Numeric_15_2_Ok t c) in H as [Hlt ->]. right. by split.
  - intros [= <-]. by left.
  - done.
Qed.

(** A stored value passes the column unchanged. *)
Lemma Numeric_15_2_stored t c d : stored_Numeric_15_2 d -> Numeric_15_2 t c d = Ok d.
Proof.
  intros [->|H]; [done|]. destruct d as [m e| |s]; try done.
  destruct H as [-> Hm]. apply Numeric_15_2_Ok. unfold hundredths. simpl.
  rewrite Z.mul_1_r. done.
Qed.

Ltac inv_result :=
  repeat match goal with
  | H : _ ≫= _ = Ok _ |- _ => apply bind_Ok in H as (? & ? & H)
  | H : Ok _ = Ok _ |- _ => injection H as H; try subst
  | H : primary_key _ _ _ = Ok _ |- _ => apply primary_key_Ok in H
  | H : references _ _ _ _ = Ok _ |- _ => apply references_Ok in H
  | H : opt_references _ _ _ _ = Ok _ |- _ => rewrite opt_references_Ok in H
  | H : require _ _ = Ok _ |- _ =>
      apply require_Ok in H; try apply bool_decide_eq_true in H
  end.

(** ** INSERT and UPDATE keep the invariant *)

Lemma is_Some_insert {A} (m : gmap UUID A) i x k :
  is_Some (m !! k) -> is_Some (<[i := x]> m !! k).
Proof.
  intros H. destruct (decide (i = k)) as [->|Hne].
  - rewrite lookup_insert_eq. eauto.
  - by rewrite lookup_insert_ne.
Qed.

#[local] Hint Resolve is_Some_insert : core.

Ltac split_insert H :=
  apply lookup_insert_Some in H as [[<- <-]|[? H]].

Lemma put_user_consistent db id u :
  consistent db -> email_unique (users db) id u -> consistent (put_user db id u).
Proof.
  intros [] Huniq. constructor; simpl; eauto.
  intros i j v w Hi Hj He.
  split_insert Hi; split_insert Hj; eauto.
  - destruct (Huniq _ _ Hj) as [?|Hne]; congruence.
  - destruct (Huniq _ _ Hi) as [?|Hne]; congruence.
Qed.

Lemma put_account_consistent db id a :
  consistent db -> is_Some (users db !! Account.user_id a) ->
  stored_Numeric_15_2 (Account.balance a) -> consistent (put_account db id a).
Proof.
  intros [] Hu Hb. constructor; simpl; eauto.
  - intros i b Hi. split_insert Hi; eauto.
  - intros i b Hi. split_insert Hi; eauto.
Qed.

Lemma put_category_consistent db id c :
  consistent db ->
  (forall u, TransactionCategory.user_id c = Some u -> is_Some (users db !! u)) ->
  (forall p, TransactionCategory.parent_category_id c = Some p ->
             is_Some (<[id := c]> (transaction_categories db) !! p)) ->
  consistent (put_category db id c).
Proof.
  intros [] Hu Hp. constructor; simpl; eauto.
  - intros i d u Hi. split_insert Hi; eauto.
  - intros i d p Hi. split_insert Hi; eauto.
Qed.

Lemma put_transaction_consistent db id x :
  consistent db ->
  is_Some (accounts db !! Transaction.account_id x) ->
  (forall c, Transaction.category_id x = Some c ->
             is_Some (transaction_categories db !! c)) ->
  (forall l, Transaction.linked_transaction_id x = Some l ->
             is_Some (<[id := x]> (transactions db) !! l)) ->
  stored_Numeric_15_2 (Transaction.amount x) ->
  consistent (put_transaction db id x).
Proof.
  intros [] Ha Hc Hl Hn. constructor; simpl; eauto.
  - intros i y Hi. split_insert Hi; eauto.
  - intros i y c Hi. split_insert Hi; eauto.
  - intros i y l Hi. split_insert Hi; eauto.
  - intros i y Hi. split_insert Hi; eauto.
Qed.

Lemma put_budget_consistent db id b :
  consistent db ->
  is_Some (users db !! Budget.user_id b) ->
  is_Some (transaction_categories db !! Budget.category_id b) ->
  stored_Numeric_15_2 (Budget.amount b) ->
  consistent (put_budget db id b).
Proof.
  intros [] Hu Hc Hn. constructor; simpl; eauto.
  - intros i y Hi. split_insert Hi; eauto.
  - intros i y Hi. split_insert Hi; eauto.
  - intros i y Hi. split_insert Hi; eauto.
Qed.

(** What a written row looks like once the column types have been
    applied. *)
Lemma coerce_user_Ok u u' :
  coerce_user u = Ok u' <->
  String_n 255 "users" "email" (User.email u) = Ok (User.email u') /\
  String_n 255 "users" "hashed_password" (User.hashed_password u)
  = Ok (User.hashed_password u') /\
  String_n 255 "users" "full_name" (User.full_name u) = Ok (User.full_name u').
Proof.
  unfold coerce_user. split.
  - intros H. inv_result. done.
  - intros (-> & -> & ->). simpl. by destruct u'.
Qed.

Lemma coerce_account_Ok a a' :
  coerce_account a = Ok a' <->
  Account.user_id a' = Account.user_id a /\
  String_n 255 "accounts" "name" (Account.name a) = Ok (Account.name a') /\
  Account.account_type a' = Account.account_type a /\
  Numeric_15_2 "accounts" "balance" (Account.balance a) = Ok (Account.balance a') /\
  String_n 3 "accounts" "currency" (Account.currency a) = Ok (Account.currency a') /\
  Account.is_active a' = Account.is_active a.
Proof.
  unfold coerce_account. split.
  - intros H. inv_result. done.
  - intros (E1 & -> & E2 & -> & -> & E3). simpl. destruct a'. simpl in *.
    by subst.
Qed.

Lemma coerce_category_Ok c c' :
  coerce_category c = Ok c' <->
  TransactionCategory.user_id c' = TransactionCategory.user_id c /\
  String_n 100 "transaction_categories" "name" (TransactionCategory.name c)
  = Ok (TransactionCategory.name c') /\
  TransactionCategory.category_type c' = TransactionCategory.category_type c /\
  opt_String_n 7 "transaction_categories" "color" (TransactionCategory.color c)
  = Ok (TransactionCategory.color c') /\
  opt_String_n 50 "transaction_categories" "icon" (TransactionCategory.icon c)
  = Ok (TransactionCategory.icon c') /\
  TransactionCategory.is_system c' = TransactionCategory.is_system c /\
  TransactionCategory.parent_category_id c'
  = TransactionCategory.parent_category_id c.
Proof.
  unfold coerce_category. split.
  - intros H. inv_result. done.
  - intros (E1 & -> & E2 & -> & -> & E3 & E4). simpl. destruct c'. simpl in *.
    by subst.
Qed.

Lemma coerce_transaction_Ok x x' :
  coerce_transaction x = Ok x' <->
  Transaction.account_id x' = Transaction.account_id x /\
  Transaction.category_id x' = Transaction.category_id x /\
  Numeric_15_2 "transactions" "amount" (Transaction.amount x)
  = Ok (Transaction.amount x') /\
  Transaction.transaction_type x' = Transaction.transaction_type x /\
  String_n 255 "transactions" "description" (Transaction.description x)
  = Ok (Transaction.description x') /\
  Transaction.transaction_date x' = Transaction.transaction_date x /\
  Transaction.notes x' = Transaction.notes x /\
  Transaction.linked_transaction_id x' = Transaction.linked_transaction_id x.
Proof.
  unfold coerce_transaction. split.
  - intros H. inv_result. done.
  - intros (E1 & E2 & -> & E3 & -> & E4 & E5 & E6). simpl. destruct x'.
    simpl in *. by subst.
Qed.

Lemma coerce_budget_Ok b b' :
  coerce_budget b = Ok b' <->
  Numeric_15_2 "budgets" "amount" (Budget.amount b) = Ok (Budget.amount b') /\
  b' = Budget.set_amount (Budget.amount b') b.
Proof.
  unfold coerce_budget. split.
  - intros H. inv_result. done.
  - intros (-> & ->). done.
Qed.

(** A row whose values already are what its columns store passes
    unchanged. *)
Lemma coerce_user_fits_Ok u :
  fits 255 (User.email u) -> fits 255 (User.hashed_password u) ->
  fits 255 (User.full_name u) -> coerce_user u = Ok u.
Proof.
  intros H1 H2 H3. apply coerce_user_Ok. by rewrite !String_n_fits.
Qed.

Lemma coerce_account_stored a :
  fits 255 (Account.name a) -> fits 3 (Account.currency a) ->
  stored_Numeric_15_2 (Account.balance a) -> coerce_account a = Ok a.
Proof.
  intros H1 H2 Hn. apply coerce_account_Ok.
  by rewrite !String_n_fits, Numeric_15_2_stored.
Qed.

Lemma opt_String_n_fits n t c o : opt_fits n o -> opt_String_n n t c o = Ok o.
Proof.
  destruct o as [s|]; simpl; [|done]. intros H.
  by rewrite String_n_fits by (by apply H).
Qed.

Lemma opt_String_n_Ok n t c o o' :
  opt_String_n n t c o = Ok o' -> opt_fits n o' /\ (opt_fits n o -> o' = o).
Proof.
  destruct o as [s|]; simpl.
  - intros H. apply bind_Ok in H as (s' & H & [= <-]).
    apply String_n_Ok in H as [Hf He]. split.
    + by intros ? [= <-].
    + intros Ho. f_equal. apply He. by apply Ho.
  - intros [= <-]. split; [by intros ?|done].
Qed.

Lemma coerce_category_fits_Ok c :
  fits 100 (TransactionCategory.name c) ->
  opt_fits 7 (TransactionCategory.color c) ->
  opt_fits 50 (TransactionCategory.icon c) -> coerce_category c = Ok c.
Proof.
  intros H1 H2 H3. apply coerce_category_Ok.
  by rewrite String_n_fits, !opt_String_n_fits.
Qed.

Lemma coerce_transaction_stored x :
  fits 255 (Transaction.description x) ->
  stored_Numeric_15_2 (Transaction.amount x) -> coerce_transaction x = Ok x.
Proof.
  intros H1 Hn. apply coerce_transaction_Ok.
  by rewrite String_n_fits, Numeric_15_2_stored.
Qed.

Lemma coerce_budget_stored b :
  stored_Numeric_15_2 (Budget.amount b) -> coerce_budget b = Ok b.
Proof.
  intros Hn. apply coerce_budget_Ok. rewrite Numeric_15_2_stored by done.
  by destruct b.
Qed.

(** ** Reading an accepted statement back *)

Lemma insert_user_Ok db id u db' :
  insert_user db id u = Ok db' <->
  exists u', coerce_user u = Ok u' /\ users db !! id = None /\
             email_unique (users db) id u' /\ db' = put_user db id u'.
Proof.
  unfold insert_user, constraints_user. split.
  - intros H. inv_result. eauto 10.
  - intros (u' & -> & Hn & Hu & ->). simpl.
    rewrite (proj2 (primary_key_Ok _ _ _ tt) Hn). simpl.
    by rewrite bool_decide_eq_true_2.
Qed.

Lemma update_user_Ok db id u db' :
  update_user db id u = Ok db' <->
  exists u', coerce_user u = Ok u' /\
    (is_Some (users db !! id) /\ email_unique (users db) id u' /\
     db' = put_user db id u'
     \/ users db !! id = None /\ db' = db).
Proof.
  unfold update_user, constraints_user. split.
  - intros H. apply bind_Ok in H as (u' & Hco & H). exists u'. split; [done|].
    case_bool_decide as Hex; inv_result.
    + left. done.
    + right. split; [|done]. by apply eq_None_not_Some.
  - intros (u' & -> & [(Hex & Hu & ->)|(Hn & ->)]); simpl.
    + rewrite bool_decide_eq_true_2 by done. by rewrite bool_decide_eq_true_2.
    + rewrite bool_decide_eq_false_2; [done|]. by apply eq_None_not_Some.
Qed.

Lemma insert_account_Ok db id a db' :
  insert_account db id a = Ok db' <->
  exists a', coerce_account a = Ok a' /\ accounts db !! id = None /\
             is_Some (users db !! Account.user_id a') /\ db' = put_account db id a'.
Proof.
  unfold insert_account, constraints_account. split.
  - intros H. inv_result. eauto 10.
  - intros (a' & -> & Hn & Hu & ->). simpl.
    rewrite (proj2 (primary_key_Ok _ _ _ tt) Hn). simpl.
    by rewrite (proj2 (references_Ok _ _ _ _ tt) Hu).
Qed.

Lemma update_account_Ok db id a db' :
  update_account db id a = Ok db' <->
  exists a', coerce_account a = Ok a' /\
    (is_Some (accounts db !! id) /\ is_Some (users db !! Account.user_id a') /\
     db' = put_account db id a'
     \/ accounts db !! id = None /\ db' = db).
Proof.
  unfold update_account, constraints_account. split.
  - intros H. apply bind_Ok in H as (a' & Hco & H). exists a'. split; [done|].
    case_bool_decide as Hex; inv_result.
    + left. done.
    + right. split; [|done]. by apply eq_None_not_Some.
  - intros (a' & -> & [(Hex & Hu & ->)|(Hn & ->)]); simpl.
    + rewrite bool_decide_eq_true_2 by done.
      by rewrite (proj2 (references_Ok _ _ _ _ tt) Hu).
    + rewrite bool_decide_eq_false_2; [done|]. by apply eq_None_not_Some.
Qed.

Lemma constraints_category_Ok db id c u :
  constraints_category db id c = Ok u <->
  (forall k, TransactionCategory.user_id c = Some k -> is_Some (users db !! k)) /\
  (forall p, TransactionCategory.parent_category_id c = Some p ->
             is_Some (<[id := c]> (transaction_categories db) !! p)).
Proof.
  unfold constraints_category. rewrite bind_Ok. split.
  - intros ([] & H1 & H2).
    split; [exact (proj1 (opt_references_Ok _ _ _ _ _) H1)
           |exact (proj1 (opt_references_Ok _ _ _ _ _) H2)].
  - intros [H1 H2]. exists tt. split; by apply opt_references_Ok.
Qed.

Lemma insert_category_Ok db id c db' :
  insert_category db id c = Ok db' <->
  exists c', coerce_category c = Ok c' /\ transaction_categories db !! id = None /\
             constraints_category db id c' = Ok tt /\ db' = put_category db id c'.
Proof.
  unfold insert_category. split.
  - intros H. apply bind_Ok in H as (c' & Hco & H).
    apply bind_Ok in H as ([] & Hn & H). apply bind_Ok in H as ([] & Hc & H).
    apply primary_key_Ok in Hn. injection H as <-. eauto 10.
  - intros (c' & Hco & Hn & Hk & ->). rewrite Hco. simpl.
    rewrite (proj2 (primary_key_Ok _ _ _ tt) Hn). simpl. by rewrite Hk.
Qed.

Lemma update_category_Ok db id c db' :
  update_category db id c = Ok db' <->
  exists c', coerce_category c = Ok c' /\
    (is_Some (transaction_categories db !! id) /\
     constraints_category db id c' = Ok tt /\ db' = put_category db id c'
     \/ transaction_categories db !! id = None /\ db' = db).
Proof.
  unfold update_category. split.
  - intros H. apply bind_Ok in H as (c' & Hco & H). exists c'. split; [done|].
    case_bool_decide as Hex.
    + apply bind_Ok in H as ([] & Hc & H). injection H as <-. left. done.
    + injection H as <-. right. split; [|done]. by apply eq_None_not_Some.
  - intros (c' & Hco & [(Hex & Hk & ->)|(Hn & ->)]); rewrite Hco; simpl.
    + rewrite bool_decide_eq_true_2 by done. by rewrite Hk.
    + rewrite bool_decide_eq_false_2; [done|]. by apply eq_None_not_Some.
Qed.

Lemma constraints_transaction_Ok db id x u :
  constraints_transaction db id x = Ok u <->
  is_Some (accounts db !! Transaction.account_id x) /\
  (forall c, Transaction.category_id x = Some c ->
             is_Some (transaction_categories db !! c)) /\
  (forall l, Transaction.linked_transaction_id x = Some l ->
             is_Some (<[id := x]> (transactions db) !! l)).
Proof.
  unfold constraints_transaction. rewrite bind_Ok. split.
  - intros ([] & H1 & H). apply bind_Ok in H as ([] & H2 & H3).
    apply references_Ok in H1. split; [done|].
    split; [exact (proj1 (opt_references_Ok _ _ _ _ _) H2)
           |exact (proj1 (opt_references_Ok _ _ _ _ _) H3)].
  - intros (H1 & H2 & H3). exists tt. rewrite references_Ok. split; [done|].
    apply bind_Ok. exists tt. split; by apply opt_references_Ok.
Qed.

Lemma insert_transaction_Ok db id x db' :
  insert_transaction db id x = Ok db' <->
  exists x', coerce_transaction x = Ok x' /\ transactions db !! id = None /\
             constraints_transaction db id x' = Ok tt /\
             db' = put_transaction db id x'.
Proof.
  unfold insert_transaction. split.
  - intros H. apply bind_Ok in H as (x' & Hco & H).
    apply bind_Ok in H as ([] & Hn & H). apply bind_Ok in H as ([] & Hc & H).
    apply primary_key_Ok in Hn. injection H as <-. eauto 10.
  - intros (x' & Hco & Hn & Hk & ->). rewrite Hco. simpl.
    rewrite (proj2 (primary_key_Ok _ _ _ tt) Hn). simpl. by rewrite Hk.
Qed.

Lemma update_transaction_Ok db id x db' :
  update_transaction db id x = Ok db' <->
  exists x', coerce_transaction x = Ok x' /\
    (is_Some (transactions db !! id) /\
     constraints_transaction db id x' = Ok tt /\ db' = put_transaction db id x'
     \/ transactions db !! id = None /\ db' = db).
Proof.
  unfold update_transaction. split.
  - intros H. apply bind_Ok in H as (x' & Hco & H). exists x'. split; [done|].
    case_bool_decide as Hex.
    + apply bind_Ok in H as ([] & Hc & H). injection H as <-. left. done.
    + injection H as <-. right. split; [|done]. by apply eq_None_not_Some.
  - intros (x' & Hco & [(Hex & Hk & ->)|(Hn & ->)]); rewrite Hco; simpl.
    + rewrite bool_decide_eq_true_2 by done. by rewrite Hk.
    + rewrite bool_decide_eq_false_2; [done|]. by apply eq_None_not_Some.
Qed.

Lemma constraints_budget_Ok db b u :
  constraints_budget db b = Ok u <->
  is_Some (users db !! Budget.user_id b) /\
  is_Some (transaction_categories db !! Budget.category_id b).
Proof.
  unfold constraints_budget. rewrite bind_Ok. split.
  - intros ([] & H1 & H2). apply references_Ok in H1. apply references_Ok in H2.
    done.
  - intros [H1 H2]. exists tt. split; by apply references_Ok.
Qed.

Lemma insert_budget_Ok db id b db' :
  insert_budget db id b = Ok db' <->
  exists b', coerce_budget b = Ok b' /\ budgets db !! id = None /\
             constraints_budget db b' = Ok tt /\ db' = put_budget db id b'.
Proof.
  unfold insert_budget. split.
  - intros H. apply bind_Ok in H as (b' & Hco & H).
    apply bind_Ok in H as ([] & Hn & H). apply bind_Ok in H as ([] & Hc & H).
    apply primary_key_Ok in Hn. injection H as <-. eauto 10.
  - intros (b' & Hco & Hn & Hk & ->). rewrite Hco. simpl.
    rewrite (proj2 (primary_key_Ok _ _ _ tt) Hn). simpl. by rewrite Hk.
Qed.

Lemma update_budget_Ok db id b db' :
  update_budget db id b = Ok db' <->
  exists b', coerce_budget b = Ok b' /\
    (is_Some (budgets db !! id) /\
     constraints_budget db b' = Ok tt /\ db' = put_budget db id b'
     \/ budgets db !! id = None /\ db' = db).
Proof.
  unfold update_budget. split.
  - intros H. apply bind_Ok in H as (b' & Hco & H). exists b'. split; [done|].
    case_bool_decide as Hex.
    + apply bind_Ok in H as ([] & Hc & H). injection H as <-. left. done.
    + injection H as <-. right. split; [|done]. by apply eq_None_not_Some.
  - intros (b' & Hco & [(Hex & Hk & ->)|(Hn & ->)]); rewrite Hco; simpl.
    + rewrite bool_decide_eq_true_2 by done. by rewrite Hk.
    + rewrite bool_decide_eq_false_2; [done|]. by apply eq_None_not_Some.
Qed.

Lemma insert_user_consistent db id u db' :
  consistent db -> insert_user db id u = Ok db' -> consistent db'.
Proof.
  intros Hc H. apply insert_user_Ok in H as (u' & _ & _ & Hu & ->).
  by apply put_user_consistent.
Qed.

Lemma update_user_consistent db id u db' :
  consistent db -> update_user db id u = Ok db' -> consistent db'.
Proof.
  intros Hc H. apply update_user_Ok in H as (u' & _ & [(_ & Hu & ->)|(_ & ->)]);
    [|done].
  by apply put_user_consistent.
Qed.

Lemma coerce_account_numeric a a' :
  coerce_account a = Ok a' -> stored_Numeric_15_2 (Account.balance a').
Proof.
  intros H. apply coerce_account_Ok in H as (_ & _ & _ & H & _).
  eapply Numeric_15_2_is_Numeric, H.
Qed.

Lemma coerce_transaction_numeric x x' :
  coerce_transaction x = Ok x' -> stored_Numeric_15_2 (Transaction.amount x').
Proof.
  intros H. apply coerce_transaction_Ok in H as (_ & _ & H & _).
  eapply Numeric_15_2_is_Numeric, H.
Qed.

Lemma coerce_budget_numeric b b' :
  coerce_budget b = Ok b' -> stored_Numeric_15_2 (Budget.amount b').
Proof.
  intros H. apply coerce_budget_Ok in H as (H & _).
  eapply Numeric_15_2_is_Numeric, H.
Qed.

Lemma insert_account_consistent db id a db' :
  consistent db -> insert_account db id a = Ok db' -> consistent db'.
Proof.
  intros Hc H. apply insert_account_Ok in H as (a' & Hco & _ & Hu & ->).
  apply put_account_consistent; eauto using coerce_account_numeric.
Qed.

Lemma update_account_consistent db id a db' :
  consistent db -> update_account db id a = Ok db' -> consistent db'.
Proof.
  intros Hc H.
  apply update_account_Ok in H as (a' & Hco & [(_ & Hu & ->)|(_ & ->)]); [|done].
  apply put_account_consistent; eauto using coerce_account_numeric.
Qed.

Lemma insert_category_consistent db id c db' :
  consistent db -> insert_category db id c = Ok db' -> consistent db'.
Proof.
  intros Hc H. apply insert_category_Ok in H as (c' & _ & _ & Hk & ->).
  apply constraints_category_Ok in Hk as [? ?].
  by apply put_category_consistent.
Qed.

Lemma update_category_consistent db id c db' :
  consistent db -> update_category db id c = Ok db' -> consistent db'.
Proof.
  intros Hc H.
  apply update_category_Ok in H as (c' & _ & [(_ & Hk & ->)|(_ & ->)]); [|done].
  apply constraints_category_Ok in Hk as [? ?].
  by apply put_category_consistent.
Qed.

Lemma insert_transaction_consistent db id x db' :
  consistent db -> insert_transaction db id x = Ok db' -> consistent db'.
Proof.
  intros Hc H. apply insert_transaction_Ok in H as (x' & Hco & _ & Hk & ->).
  apply constraints_transaction_Ok in Hk as (? & ? & ?).
  apply put_transaction_consistent; eauto using coerce_transaction_numeric.
Qed.

Lemma update_transaction_consistent db id x db' :
  consistent db -> update_transaction db id x = Ok db' -> consistent db'.
Proof.
  intros Hc H.
  apply update_transaction_Ok in H as (x' & Hco & [(_ & Hk & ->)|(_ & ->)]);
    [|done].
  apply constraints_transaction_Ok in Hk as (? & ? & ?).
  apply put_transaction_consistent; eauto using coerce_transaction_numeric.
Qed.

Lemma insert_budget_consistent db id b db' :
  consistent db -> insert_budget db id b = Ok db' -> consistent db'.
Proof.
  intros Hc H. apply insert_budget_Ok in H as (b' & Hco & _ & Hk & ->).
  apply constraints_budget_Ok in Hk as (? & ?).
  apply put_budget_consistent; eauto using coerce_budget_numeric.
Qed.

Lemma update_budget_consistent db id b db' :
  consistent db -> update_budget db id b = Ok db' -> consistent db'.
Proof.
  intros Hc H.
  apply update_budget_Ok in H as (b' & Hco & [(_ & Hk & ->)|(_ & ->)]); [|done].
  apply constraints_budget_Ok in Hk as (? & ?).
  apply put_budget_consistent; eauto using coerce_budget_numeric.
Qed.

(** ** DELETE keeps the invariant *)

Lemma filter_not_in_Some {A} (m : gmap UUID A) (S : gset UUID) i x :
  filter (fun kv => kv.1 ∉ S) m !! i = Some x <-> m !! i = Some x /\ i ∉ S.
Proof. by rewrite map_lookup_filter_Some. Qed.

Lemma filter_not_in_is_Some {A} (m : gmap UUID A) (S : gset UUID) i :
  is_Some (m !! i) -> i ∉ S -> is_Some (filter (fun kv => kv.1 ∉ S) m !! i).
Proof. intros [x Hx] Hi. exists x. by apply filter_not_in_Some. Qed.

Lemma elem_of_dom_filter {A} (P : UUID * A -> Prop) `{!forall kv, Decision (P kv)}
    (m : gmap UUID A) i x :
  m !! i = Some x -> P (i, x) -> i ∈ dom (filter P m).
Proof. intros Hx HP. apply elem_of_dom. exists x. by apply map_lookup_filter_Some. Qed.

Lemma set_null_category_id dC dT x c :
  Transaction.category_id (set_null dC dT x) = Some c ->
  Transaction.category_id x = Some c /\ c ∉ dC.
Proof.
  simpl. case_decide as Hd; [done|]. intros Hc. rewrite Hc in Hd. done.
Qed.

Lemma set_null_linked_transaction_id dC dT x l :
  Transaction.linked_transaction_id (set_null dC dT x) = Some l ->
  Transaction.linked_transaction_id x = Some l /\ l ∉ dT.
Proof.
  simpl. case_decide as Hd; [done|]. intros Hc. rewrite Hc in Hd. done.
Qed.

Lemma cascade_delete_consistent db dU dA0 dC0 dT0 dB0 :
  consistent db -> consistent (cascade_delete db dU dA0 dC0 dT0 dB0).
Proof.
  intros []. unfold cascade_delete.
  set (dA := dA0 ∪ dom (filter (fun kv => Account.user_id kv.2 ∈ dU) (accounts db))).
  set (seed := dC0 ∪ dom (filter
         (fun kv => refers_in dU (TransactionCategory.user_id kv.2))
         (transaction_categories db))).
  set (dC := deleted_categories (transaction_categories db) seed).
  set (dT := dT0 ∪ dom (filter (fun kv => Transaction.account_id kv.2 ∈ dA)
                               (transactions db))).
  set (dB := dB0 ∪ dom (filter
         (fun kv => Budget.user_id kv.2 ∈ dU \/ Budget.category_id kv.2 ∈ dC)
         (budgets db))).
  constructor; simpl.
  - intros i j u v Hi Hj. apply filter_not_in_Some in Hi as [Hi _].
    apply filter_not_in_Some in Hj as [Hj _]. eauto.
  - intros i a Hi. apply filter_not_in_Some in Hi as [Hi Hn].
    apply filter_not_in_is_Some; [eauto|].
    intros Hu. apply Hn, elem_of_union. right. by eapply elem_of_dom_filter.
  - intros i a Hi. apply filter_not_in_Some in Hi as [Hi _]. eauto.
  - intros i c u Hi Hu. apply filter_not_in_Some in Hi as [Hi Hn].
    apply filter_not_in_is_Some; [eauto|].
    intros Hin. apply Hn, deleted_categories_incl, elem_of_union. right.
    eapply elem_of_dom_filter; [done|]. simpl. by rewrite Hu.
  - intros i c p Hi Hp. apply filter_not_in_Some in Hi as [Hi Hn].
    apply filter_not_in_is_Some; [eauto|].
    intros Hin. apply Hn, deleted_categories_closed, elem_of_subcategories_of.
    eauto.
  - intros i y Hy. apply lookup_fmap_Some in Hy as (x & <- & Hx).
    apply filter_not_in_Some in Hx as [Hx Hn]. simpl.
    apply filter_not_in_is_Some; [eauto|].
    intros Hin. apply Hn, elem_of_union. right. by eapply elem_of_dom_filter.
  - intros i y c Hy Hc. apply lookup_fmap_Some in Hy as (x & <- & Hx).
    apply filter_not_in_Some in Hx as [Hx Hn].
    apply set_null_category_id in Hc as [Hc Hnc].
    apply filter_not_in_is_Some; eauto.
  - intros i y l Hy Hl. apply lookup_fmap_Some in Hy as (x & <- & Hx).
    apply filter_not_in_Some in Hx as [Hx Hn].
    apply set_null_linked_transaction_id in Hl as [Hl Hnl].
    destruct (transactions_linked_fk0 _ _ _ Hx Hl) as [z Hz].
    exists (set_null dC dT z). apply lookup_fmap_Some. exists z.
    split; [done|]. by apply filter_not_in_Some.
  - intros i y Hy. apply lookup_fmap_Some in Hy as (x & <- & Hx).
    apply filter_not_in_Some in Hx as [Hx Hn]. simpl. eauto.
  - intros i b Hi. apply filter_not_in_Some in Hi as [Hi Hn].
    apply filter_not_in_is_Some; [eauto|].
    intros Hin. apply Hn, elem_of_union. right.
    eapply elem_of_dom_filter; [done|]. simpl. by left.
  - intros i b Hi. apply filter_not_in_Some in Hi as [Hi Hn].
    apply filter_not_in_is_Some; [eauto|].
    intros Hin. apply Hn, elem_of_union. right.
    eapply elem_of_dom_filter; [done|]. simpl. by right.
  - intros i b Hi. apply filter_not_in_Some in Hi as [Hi _]. eauto.
Qed.

(** ** Every reachable state satisfies the invariant *)

Lemma empty_db_consistent : consistent empty_db.
Proof. constructor; simpl; intros *; by rewrite lookup_empty. Qed.

Lemma execute_consistent db s db' :
  consistent db -> execute db s = Ok db' -> consistent db'.
Proof.
  intros Hc. destruct s; simpl; intros H;
    try (injection H as <-; by apply cascade_delete_consistent);
    eauto using insert_user_consistent, update_user_consistent,
      insert_account_consistent, update_account_consistent,
      insert_category_consistent, update_category_consistent,
      insert_transaction_consistent, update_transaction_consistent,
      insert_budget_consistent, update_budget_consistent.
Qed.

Lemma run_consistent ss : forall db db',
  consistent db -> run db ss = Ok db' -> consistent db'.
Proof.
  induction ss as [|s ss IH]; simpl; intros db db' Hc H.
  - by injection H as <-.
  - apply bind_Ok in H as (db1 & H1 & H). eauto using execute_consistent.
Qed.

Lemma reachable_consistent db : reachable db -> consistent db.
Proof. intros [ss H]. eapply run_consistent; [apply empty_db_consistent|done]. Qed.

Lemma run_app db ss1 ss2 :
  run db (ss1 ++ ss2) = (db' ← run db ss1; run db' ss2).
Proof.
  revert db. induction ss1 as [|s ss1 IH]; intros db; simpl; [done|].
  destruct (execute db s); simpl; [apply IH|done].
Qed.

Lemma reachable_execute db s db' :
  reachable db -> execute db s = Ok db' -> reachable db'.
Proof.
  intros [ss H] He. exists (ss ++ [s]). rewrite run_app, H. simpl.
  by rewrite He.
Qed.

(** ** What a single DELETE removes *)

Lemma dom_filter_none {A} (P : UUID * A -> Prop) `{!forall kv, Decision (P kv)}
    (m : gmap UUID A) :
  (forall i x, m !! i = Some x -> ~ P (i, x)) -> dom (filter P m) = ∅.
Proof.
  intros Hnone. apply set_eq. intros i. rewrite elem_of_dom. split; [|set_solver].
  intros [x Hx]. apply map_lookup_filter_Some in Hx as [Hx HP].
  by destruct (Hnone i x).
Qed.

Lemma filter_not_in_empty {A} (m : gmap UUID A)
    `{!forall kv : UUID * A, Decision (kv.1 ∉ (∅ : gset UUID))} :
  filter (fun kv => kv.1 ∉ (∅ : gset UUID)) m = m.
Proof. apply map_filter_id. set_solver. Qed.

Lemma filter_not_in_singleton {A} (m : gmap UUID A) (i : UUID)
    `{!forall kv : UUID * A, Decision (kv.1 ∉ ({[i]} : gset UUID))} :
  filter (fun kv => kv.1 ∉ ({[i]} : gset UUID)) m = delete i m.
Proof.
  apply map_eq. intros j. destruct (decide (i = j)) as [->|Hne].
  - rewrite lookup_delete_eq. apply map_lookup_filter_None. right.
    intros x _. simpl. set_solver.
  - rewrite lookup_delete_ne by done.
    destruct (m !! j) as [x|] eqn:E.
    + apply map_lookup_filter_Some. split; [done|]. simpl. set_solver.
    + apply map_lookup_filter_None. by left.
Qed.

Lemma deleted_categories_empty cats : deleted_categories cats ∅ = ∅.
Proof.
  apply cascade_categories_fix. intros x Hx.
  apply elem_of_subcategories_of in Hx as (? & ? & _ & _ & ?). set_solver.
Qed.

Lemma set_null_not_referring dC dT x :
  ~ refers_in dC (Transaction.category_id x) ->
  ~ refers_in dT (Transaction.linked_transaction_id x) ->
  set_null dC dT x = x.
Proof. intros H1 H2. destruct x. unfold set_null. simpl in *. by rewrite !decide_False. Qed.

Lemma refers_in_empty o : ~ refers_in ∅ o.
Proof. destruct o; simpl; set_solver. Qed.

(** Deleting one transaction touches only the [transactions] table: the
    row goes, and every link to it is cleared. *)
Lemma delete_transaction_eq db i :
  delete_transaction db i =
  mkDB (users db) (accounts db) (transaction_categories db)
       (set_null ∅ {[i]} <$> delete i (transactions db)) (budgets db).
Proof.
  unfold delete_transaction, cascade_delete.
  rewrite (dom_filter_none (fun kv => Account.user_id kv.2 ∈ _)) by set_solver.
  rewrite (dom_filter_none (fun kv => refers_in _ (TransactionCategory.user_id kv.2)))
    by (intros; apply refers_in_empty).
  rewrite !(left_id_L ∅ (∪)), deleted_categories_empty.
  rewrite (dom_filter_none (fun kv => Transaction.account_id kv.2 ∈ _)) by set_solver.
  rewrite (dom_filter_none (fun kv => Budget.user_id kv.2 ∈ _ \/ _)) by set_solver.
  rewrite !(right_id_L ∅ (∪)). rewrite !filter_not_in_empty, filter_not_in_singleton.
  done.
Qed.

(** Deleting one category touches the categories, the budgets and the
    [category_id] of the transactions; no transaction is removed. *)
Lemma delete_category_eq db c :
  let dC := deleted_categories (transaction_categories db) {[c]} in
  delete_category db c =
  mkDB (users db) (accounts db)
       (filter (fun kv => kv.1 ∉ dC) (transaction_categories db))
       (set_null dC ∅ <$> transactions db)
       (filter (fun kv => Budget.category_id kv.2 ∉ dC) (budgets db)).
Proof.
  intros dC. unfold delete_category, cascade_delete.
  rewrite (dom_filter_none (fun kv => Account.user_id kv.2 ∈ _)) by set_solver.
  rewrite (dom_filter_none (fun kv => refers_in _ (TransactionCategory.user_id kv.2)))
    by (intros; apply refers_in_empty).
  rewrite !(left_id_L ∅ (∪)), !(right_id_L ∅ (∪)).
  rewrite (dom_filter_none (fun kv => Transaction.account_id kv.2 ∈ _)) by set_solver.
  rewrite !filter_not_in_empty. fold dC. f_equal.
  apply map_filter_strong_ext. intros i b. simpl. split.
  - intros [Hn Hb]. split; [|done]. intros Hin. apply Hn.
    apply elem_of_dom. exists b. apply map_lookup_filter_Some. split; [done|].
    simpl. by right.
  - intros [Hn Hb]. split; [|done]. intros Hin.
    apply elem_of_dom in Hin as [b' Hb'].
    apply map_lookup_filter_Some in Hb' as [Hb' [?|?]]; simpl in *; [set_solver|].
    congruence.
Qed.

(** * The claims *)

(** ** Deleting a transaction *)

Lemma set_null_linked_to_deleted i y :
  Transaction.linked_transaction_id y = Some i ->
  set_null ∅ {[i]} y = Transaction.set_linked_transaction_id None y.
Proof.
  intros Hl. unfold set_null, Transaction.set_linked_transaction_id.
  rewrite Hl. rewrite (decide_False (P := refers_in ∅ _)) by apply refers_in_empty.
  rewrite decide_True by (simpl; set_solver). done.
Qed.

(** C3.  When the linked counterpart [i] of a transaction [j] is deleted,
    [j] is not deleted with it: it stays in the table, and the only
    change to it is that [linked_transaction_id] becomes NULL. *)
Theorem deleted_counterpart_clears_link db (i j : UUID) (y : Transaction.t) :
  i <> j ->
  transactions db !! j = Some y ->
  Transaction.linked_transaction_id y = Some i ->
  transactions (delete_transaction db i) !! i = None /\
  transactions (delete_transaction db i) !! j
  = Some (Transaction.set_linked_transaction_id None y).
Proof.
  intros Hne Hy Hl. rewrite delete_transaction_eq. simpl.
  rewrite !lookup_fmap, lookup_delete_eq, lookup_delete_ne, Hy by done. simpl.
  split; [done|]. f_equal. by apply set_null_linked_to_deleted.
Qed.

(** C2, as amended.  Removing one leg of a linked pair does not remove
    the counterpart: the removed leg is gone, the counterpart stays with
    its link cleared, and the [accounts] table -- hence every stored
    balance -- is left exactly as it was. *)
Theorem removing_a_leg_keeps_counterpart_and_balances db (i j : UUID)
    (x y : Transaction.t) :
  i <> j ->
  transactions db !! i = Some x ->
  transactions db !! j = Some y ->
  Transaction.linked_transaction_id x = Some j ->
  Transaction.linked_transaction_id y = Some i ->
  transactions (delete_transaction db i) !! i = None /\
  transactions (delete_transaction db i) !! j
  = Some (Transaction.set_linked_transaction_id None y) /\
  accounts (delete_transaction db i) = accounts db.
Proof.
  intros Hne Hx Hy Hlx Hly. rewrite delete_transaction_eq. simpl.
  rewrite !lookup_fmap, lookup_delete_eq, lookup_delete_ne, Hy by done. simpl.
  split; [done|]. split; [|done]. f_equal. by apply set_null_linked_to_deleted.
Qed.

(** ** Deleting a user *)

(** C4.  Deleting a user removes the user, every account, category and
    budget that names the user as owner, and every transaction of an
    account of the user. *)
Theorem delete_user_cascades db (u : UUID) :
  users (delete_user db u) !! u = None /\
  (forall i a, accounts db !! i = Some a -> Account.user_id a = u ->
               accounts (delete_user db u) !! i = None) /\
  (forall i c, transaction_categories db !! i = Some c ->
               TransactionCategory.user_id c = Some u ->
               transaction_categories (delete_user db u) !! i = None) /\
  (forall i b, budgets db !! i = Some b -> Budget.user_id b = u ->
               budgets (delete_user db u) !! i = None) /\
  (forall i x a, transactions db !! i = Some x ->
                 accounts db !! Transaction.account_id x = Some a ->
                 Account.user_id a = u ->
                 transactions (delete_user db u) !! i = None).
Proof.
  unfold delete_user, cascade_delete. simpl. repeat split.
  - apply map_lookup_filter_None. right. intros ? _. simpl. set_solver.
  - intros i a Hi Hu. apply map_lookup_filter_None. right. intros ? _ Hn.
    simpl in Hn. apply Hn, elem_of_union. right.
    eapply elem_of_dom_filter; [done|]. simpl. set_solver.
  - intros i c Hi Hu. apply map_lookup_filter_None. right. intros ? _ Hn.
    simpl in Hn. apply Hn, deleted_categories_incl, elem_of_union. right.
    eapply elem_of_dom_filter; [done|]. simpl. rewrite Hu. simpl. set_solver.
  - intros i b Hi Hu. apply map_lookup_filter_None. right. intros ? _ Hn.
    simpl in Hn. apply Hn, elem_of_union. right.
    eapply elem_of_dom_filter; [done|]. simpl. left. set_solver.
  - intros i x a Hi Ha Hu. rewrite lookup_fmap.
    match goal with |- _ <$> ?o = None => assert (o = None) as ->; [|done] end.
    apply map_lookup_filter_None. right. intros ? _ Hn.
    simpl in Hn. apply Hn, elem_of_union. right.
    eapply elem_of_dom_filter; [done|]. simpl. apply elem_of_union. right.
    eapply elem_of_dom_filter; [done|]. simpl. set_solver.
Qed.

(** ** Deleting a category *)

(** C5.  Deleting a category removes the category, its subcategories
    (at every depth) and the budgets that target it.  No transaction is
    removed: the table keeps the same keys, and a transaction that
    referenced the category is the same row with [category_id] NULL. *)
Theorem delete_category_cascades db (c : UUID) :
  transaction_categories (delete_category db c) !! c = None /\
  (forall s r, transaction_categories db !! s = Some r ->
               TransactionCategory.parent_category_id r = Some c ->
               transaction_categories (delete_category db c) !! s = None) /\
  (forall s, descends (transaction_categories db) c s ->
             transaction_categories (delete_category db c) !! s = None) /\
  (forall i b, budgets db !! i = Some b -> Budget.category_id b = c ->
               budgets (delete_category db c) !! i = None) /\
  dom (transactions (delete_category db c)) = dom (transactions db) /\
  (forall i x, transactions db !! i = Some x ->
               Transaction.category_id x = Some c ->
               transactions (delete_category db c) !! i
               = Some (Transaction.set_category_id None x)).
Proof.
  rewrite delete_category_eq. simpl.
  set (dC := deleted_categories (transaction_categories db) {[c]}).
  assert (forall s, descends (transaction_categories db) c s ->
            filter (fun kv => kv.1 ∉ dC) (transaction_categories db) !! s = None)
    as Hdesc.
  { intros s Hs. apply map_lookup_filter_None. right. intros r _ Hn.
    apply Hn. eapply descends_deleted; [|done]. set_solver. }
  repeat split.
  - apply Hdesc. constructor.
  - intros s r Hs Hp. apply Hdesc. econstructor; eauto. constructor.
  - done.
  - intros i b Hi Hb. apply map_lookup_filter_None. right. intros b' Hb' Hn.
    assert (b' = b) as -> by congruence.
    simpl in Hn. apply Hn. rewrite Hb.
    apply deleted_categories_incl. set_solver.
  - by rewrite dom_fmap_L.
  - intros i x Hi Hc. rewrite lookup_fmap, Hi. simpl. f_equal.
    unfold set_null, Transaction.set_category_id. rewrite Hc.
    rewrite decide_True by (simpl; apply deleted_categories_incl; set_solver).
    rewrite (decide_False (P := refers_in ∅ _)) by apply refers_in_empty. done.
Qed.

Lemma state_of_reachable ss db : run empty_db ss = Ok db -> reachable (state_of ss).
Proof. intros H. exists ss. unfold state_of. by rewrite H. Qed.

Lemma transfer_db_reachable : reachable transfer_db.
Proof. by eapply state_of_reachable; vm_compute. Qed.

Lemma budget_db_reachable : reachable budget_db.
Proof. by eapply state_of_reachable; vm_compute. Qed.

Lemma deleted_counterpart_clears_link_witness :
  transactions transfer_db !! 21%N = Some (leg_B (Some 20%N)) /\
  transactions (delete_transaction transfer_db 20%N) !! 20%N = None /\
  transactions (delete_transaction transfer_db 20%N) !! 21%N = Some (leg_B None).
Proof.
  split; [reflexivity|].
  apply (deleted_counterpart_clears_link transfer_db 20%N 21%N (leg_B (Some 20%N)));
    [discriminate | reflexivity | reflexivity].
Defined.

Lemma removing_a_leg_keeps_counterpart_and_balances_witness :
  transactions (delete_transaction transfer_db 21%N) !! 21%N = None /\
  transactions (delete_transaction transfer_db 21%N) !! 20%N = Some (leg_A None) /\
  accounts (delete_transaction transfer_db 21%N) = accounts transfer_db.
Proof.
  apply (removing_a_leg_keeps_counterpart_and_balances transfer_db 21%N 20%N
           (leg_B (Some 20%N)) (leg_A (Some 21%N)));
    [discriminate | reflexivity | reflexivity | reflexivity | reflexivity].
Defined.

(** C2, as stated, fails.  Accounts A and B start at 0.00; a transfer of
    50.00 from A to B is recorded as two linked legs and the balances
    -50.00 and 50.00.  Deleting the leg on A leaves the leg on B in the
    table, and the balances stay at -50.00 and 50.00. *)
Lemma removing_a_leg_does_not_undo_the_transfer :
  run empty_db transfer_statements = Ok transfer_db /\
  transactions transfer_db !! 20%N = Some (leg_A (Some 21%N)) /\
  transactions transfer_db !! 21%N = Some (leg_B (Some 20%N)) /\
  transactions (delete_transaction transfer_db 20%N) !! 21%N <> None /\
  Account.balance <$> accounts (delete_transaction transfer_db 20%N) !! 5%N
  = Some (mkDecimal (-5000) (-2)) /\
  Account.balance <$> accounts (delete_transaction transfer_db 20%N) !! 6%N
  = Some (mkDecimal 5000 (-2)) /\
  Account.balance <$> accounts (delete_transaction transfer_db 20%N) !! 5%N
  <> Some Decimal_0_00 /\
  Account.balance <$> accounts (delete_transaction transfer_db 20%N) !! 6%N
  <> Some Decimal_0_00.
Proof. repeat split; try (vm_compute; reflexivity); vm_compute; discriminate. Qed.

(** ** Transfers *)

(** C1, as amended.  In every reachable state a transaction whose link
    field is set links to a transaction that exists. *)
Theorem linked_transaction_exists db (i l : UUID) (x : Transaction.t) :
  reachable db ->
  transactions db !! i = Some x ->
  Transaction.linked_transaction_id x = Some l ->
  exists y, transactions db !! l = Some y.
Proof.
  intros Hr Hx Hl. apply reachable_consistent in Hr.
  exact (transactions_linked_fk db Hr i x l Hx Hl).
Qed.

Lemma linked_transaction_exists_witness :
  exists y, transactions transfer_db !! 21%N = Some y.
Proof.
  apply (linked_transaction_exists transfer_db 20%N 21%N (leg_A (Some 21%N))
           transfer_db_reachable); reflexivity.
Defined.

Lemma lone_leg_db_reachable : reachable lone_leg_db.
Proof. by eapply state_of_reachable; vm_compute. Qed.

Lemma mismatched_db_reachable : reachable mismatched_db.
Proof. by eapply state_of_reachable; vm_compute. Qed.

(** C1, as stated, fails.  A transfer can be stored without any link; a
    transfer can be linked to a row that is no transfer, sits on the same
    account, carries another amount and does not link back; and after one
    leg of a pair is deleted the other leg is still there. *)
Lemma transfer_without_partner :
  (reachable lone_leg_db /\
   transactions lone_leg_db !! 20%N = Some (leg_A None) /\
   Transaction.transaction_type (leg_A None) = TRANSFER /\
   ~ has_link_partner lone_leg_db 20%N (leg_A None) /\
   ~ transfers_paired lone_leg_db) /\
  (reachable mismatched_db /\
   transactions mismatched_db !! 20%N = Some (leg_A (Some 22%N)) /\
   transactions mismatched_db !! 22%N = Some salary /\
   Transaction.transaction_type salary <> TRANSFER /\
   Transaction.account_id salary = Transaction.account_id (leg_A (Some 22%N)) /\
   Transaction.amount salary <> negated (Transaction.amount (leg_A (Some 22%N))) /\
   Transaction.linked_transaction_id salary = None /\
   ~ transfers_paired mismatched_db) /\
  (reachable (delete_transaction transfer_db 20%N) /\
   transactions (delete_transaction transfer_db 20%N) !! 20%N = None /\
   transactions (delete_transaction transfer_db 20%N) !! 21%N = Some (leg_B None) /\
   ~ transfers_paired (delete_transaction transfer_db 20%N)).
Proof.
  assert (~ has_link_partner lone_leg_db 20%N (leg_A None)) as Hlone.
  { intros (l & y & Hl & _). discriminate Hl. }
  split; [|split].
  - split; [apply lone_leg_db_reachable|]. do 2 (split; [reflexivity|]).
    split; [done|]. intros Hp. apply Hlone. by apply Hp.
  - split; [apply mismatched_db_reachable|]. do 2 (split; [reflexivity|]).
    split; [discriminate|]. split; [reflexivity|]. split; [discriminate|].
    split; [reflexivity|].
    intros Hp.
    destruct (Hp 20%N (leg_A (Some 22%N)) eq_refl eq_refl)
      as (l & y & Hl & Hy & Ht & _).
    injection Hl as <-. vm_compute in Hy. injection Hy as <-. discriminate Ht.
  - split.
    { eapply reachable_execute; [apply transfer_db_reachable|].
      by instantiate (1 := DeleteTransaction 20%N). }
    do 2 (split; [reflexivity|]).
    intros Hp.
    destruct (Hp 21%N (leg_B None) eq_refl eq_refl) as (l & y & Hl & _).
    discriminate Hl.
Qed.

(** ** The category tree *)

(** C6, as amended.  In every reachable state a category that has a
    parent refers to a category that exists, and a category that has an
    owner refers to a user that exists; creating and reparenting keep
    this, and check nothing else. *)
Theorem parent_category_exists db (c : UUID) (r : TransactionCategory.t) :
  reachable db ->
  transaction_categories db !! c = Some r ->
  (forall p, TransactionCategory.parent_category_id r = Some p ->
             exists q, transaction_categories db !! p = Some q) /\
  (forall u, TransactionCategory.user_id r = Some u ->
             exists v, users db !! u = Some v).
Proof.
  intros Hr Hc. apply reachable_consistent in Hr. split.
  - intros p Hp. exact (categories_parent_fk db Hr c r p Hc Hp).
  - intros u Hu. exact (categories_user_fk db Hr c r u Hc Hu).
Qed.

Lemma reparent_db_reachable : reachable reparent_db.
Proof. by eapply state_of_reachable; vm_compute. Qed.

Lemma parent_category_exists_witness :
  (forall p, TransactionCategory.parent_category_id (groceries (Some 11%N)) = Some p ->
             exists q, transaction_categories reparent_db !! p = Some q) /\
  (forall u, TransactionCategory.user_id (groceries (Some 11%N)) = Some u ->
             exists v, users reparent_db !! u = Some v).
Proof.
  apply (parent_category_exists reparent_db 10%N (groceries (Some 11%N))
           reparent_db_reachable); reflexivity.
Defined.

(** C6, as stated, fails.  "Food" is a system category, "Groceries"
    belongs to a user and is created under "Food"; "Food" is then
    reparented under "Groceries".  Every statement is accepted, parent
    and child differ in owner scope, and "Groceries" is its own
    ancestor. *)
Lemma category_cycle_across_owner_scopes :
  run empty_db reparent_statements = Ok reparent_db /\
  transaction_categories reparent_db !! 10%N = Some (groceries (Some 11%N)) /\
  transaction_categories reparent_db !! 11%N = Some (food (Some 10%N)) /\
  TransactionCategory.user_id (groceries (Some 11%N)) = Some 1%N /\
  TransactionCategory.user_id (food (Some 10%N)) = None /\
  own_ancestor (transaction_categories reparent_db) 10%N /\
  ~ same_owner_scope (transaction_categories reparent_db) 10%N /\
  ~ category_tree_ok reparent_db.
Proof.
  assert (own_ancestor (transaction_categories reparent_db) 10%N) as Hcyc.
  { exists (groceries (Some 11%N)), 11%N. do 2 (split; [reflexivity|]).
    apply (descends_step _ _ 11%N (food (Some 10%N)) 10%N);
      [reflexivity | reflexivity | constructor]. }
  split; [by vm_compute|]. do 4 (split; [reflexivity|]).
  split; [done|]. split.
  - intros Hs.
    specialize (Hs (groceries (Some 11%N)) 11%N (food (Some 10%N))
                   eq_refl eq_refl eq_refl).
    discriminate Hs.
  - intros Hok. by destruct (Hok 10%N) as [Hn _].
Qed.

(** ** Budgets *)

(** C7, as amended.  Writing a budget is checked against the existence
    of its user and its category and against the range of its amount,
    and against nothing else: whatever budgets the table already holds,
    a new budget under an unused key is inserted, and an existing budget
    is overwritten. *)
Theorem budget_write_ignores_other_budgets db (id : UUID) (b : Budget.t)
    (a : Decimal) :
  is_Some (users db !! Budget.user_id b) ->
  is_Some (transaction_categories db !! Budget.category_id b) ->
  Numeric_15_2 "budgets" "amount" (Budget.amount b) = Ok a ->
  (budgets db !! id = None ->
   insert_budget db id b = Ok (put_budget db id (Budget.set_amount a b))) /\
  (is_Some (budgets db !! id) ->
   update_budget db id b = Ok (put_budget db id (Budget.set_amount a b))).
Proof.
  intros Hu Hc Hn.
  assert (coerce_budget b = Ok (Budget.set_amount a b)) as Hco.
  { by apply coerce_budget_Ok. }
  assert (constraints_budget db (Budget.set_amount a b) = Ok tt) as Hcs.
  { by apply constraints_budget_Ok. }
  split.
  - intros Hfresh. apply insert_budget_Ok. eauto 10.
  - intros Hex. apply update_budget_Ok. eauto 10.
Qed.

Lemma budget_write_ignores_other_budgets_witness :
  insert_budget twice_db 32%N groceries_budget
  = Ok (put_budget twice_db 32%N groceries_budget).
Proof.
  apply (budget_write_ignores_other_budgets twice_db 32%N groceries_budget
           (mkDecimal 40000 (-2)));
    [by eexists | by eexists | by vm_compute | reflexivity].
Defined.

(** C7, as stated, fails.  The monthly budget on "Groceries" starting
    2024-01-01 is inserted a second time under another key; the statement
    is accepted, and the two budgets share user, category and window. *)
Lemma overlapping_budgets_accepted :
  run empty_db twice_statements = Ok twice_db /\
  budgets twice_db !! 30%N = Some groceries_budget /\
  budgets twice_db !! 31%N = Some groceries_budget /\
  windows_overlap groceries_budget groceries_budget = true /\
  ~ budgets_disjoint twice_db.
Proof.
  split; [by vm_compute|]. do 3 (split; [reflexivity|]).
  intros Hd.
  specialize (Hd 30%N 31%N groceries_budget groceries_budget eq_refl eq_refl).
  discriminate Hd; [discriminate|reflexivity|reflexivity].
Qed.

(** ** Users *)

Lemma email_unique_fresh (m : gmap UUID User.t) id u :
  m !! id = None ->
  email_unique m id u <->
  forall j v, m !! j = Some v -> User.email v <> User.email u.
Proof.
  intros Hfresh. unfold email_unique, map_Forall. split.
  - intros H j v Hj. destruct (H j v Hj) as [->|Hne]; [congruence|done].
  - intros H j v Hj. right. eauto.
Qed.

(** C8, as amended.  Registering a user under an unused key, with columns
    that fit [String(255)], succeeds when no stored user has the same
    e-mail string and fails with DuplicateEmail when one has; "the same"
    is equality of strings, letter case included. *)
Theorem insert_user_duplicate_email db (id : UUID) (u : User.t) :
  users db !! id = None ->
  (String.length (User.email u) <= 255)%nat ->
  (String.length (User.hashed_password u) <= 255)%nat ->
  (String.length (User.full_name u) <= 255)%nat ->
  ((forall j v, users db !! j = Some v -> User.email v <> User.email u) ->
   insert_user db id u = Ok (put_user db id u) /\
   users (put_user db id u) !! id = Some u) /\
  ((exists j v, users db !! j = Some v /\ User.email v = User.email u) ->
   insert_user db id u = Err DuplicateEmail).
Proof.
  intros Hfresh Le Lp Ln.
  assert (coerce_user u = Ok u) as Hco by by apply coerce_user_fits_Ok.
  unfold insert_user, constraints_user. rewrite Hco. simpl.
  rewrite (proj2 (primary_key_Ok _ _ _ tt) Hfresh). simpl.
  split.
  - intros Hnone. rewrite bool_decide_eq_true_2
      by (by apply email_unique_fresh). simpl.
    split; [done|]. apply lookup_insert_eq.
  - intros (j & v & Hj & He). rewrite bool_decide_eq_false_2; [done|].
    intros Huniq. eapply email_unique_fresh in Huniq; eauto.
Qed.

Lemma insert_user_duplicate_email_witness :
  insert_user one_user_db 2%N alice = Err DuplicateEmail.
Proof.
  apply (insert_user_duplicate_email one_user_db 2%N alice);
    [reflexivity | vm_compute; lia | vm_compute; lia | vm_compute; lia |].
  exists 1%N, alice. split; reflexivity.
Defined.

(** C8, as stated, fails.  "alice@example.com" is registered;
    "Alice@Example.com" is the same address when letter case is ignored,
    and registering it is accepted. *)
Lemma email_differing_in_case_accepted :
  users one_user_db !! 1%N = Some alice /\
  same_email_ignoring_case (User.email alice_again) (User.email alice) /\
  insert_user one_user_db 2%N alice_again
  = Ok (put_user one_user_db 2%N alice_again) /\
  insert_user one_user_db 2%N alice_again <> Err DuplicateEmail.
Proof.
  split; [reflexivity|]. split; [reflexivity|].
  split; [by vm_compute|]. vm_compute. discriminate.
Qed.

(** ** Money *)

(** C9, as amended.  In every reachable state every balance, every
    transaction amount and every budget limit is either NaN or a decimal
    with exactly two fractional digits (exponent -2) and at most 15
    digits, an integer number of hundredths; no binary fraction is held
    anywhere. *)
Theorem money_is_fixed_point db :
  reachable db ->
  (forall i a, accounts db !! i = Some a ->
     Account.balance a = NaN \/ is_Numeric_15_2 (Account.balance a)) /\
  (forall i x, transactions db !! i = Some x ->
     Transaction.amount x = NaN \/ is_Numeric_15_2 (Transaction.amount x)) /\
  (forall i b, budgets db !! i = Some b ->
     Budget.amount b = NaN \/ is_Numeric_15_2 (Budget.amount b)).
Proof.
  intros Hr. apply reachable_consistent in Hr. split; [|split].
  - exact (accounts_balance_numeric db Hr).
  - exact (transactions_amount_numeric db Hr).
  - exact (budgets_amount_numeric db Hr).
Qed.

Lemma money_is_fixed_point_witness :
  (forall i a, accounts budget_db !! i = Some a ->
     Account.balance a = NaN \/ is_Numeric_15_2 (Account.balance a)) /\
  (forall i x, transactions budget_db !! i = Some x ->
     Transaction.amount x = NaN \/ is_Numeric_15_2 (Transaction.amount x)) /\
  (forall i b, budgets budget_db !! i = Some b ->
     Budget.amount b = NaN \/ is_Numeric_15_2 (Budget.amount b)).
Proof. apply (money_is_fixed_point budget_db budget_db_reachable). Defined.

(** C9, as stated, fails.  An account is inserted with balance
    Decimal("NaN"), a transaction with amount NaN and a budget with amount
    NaN; every statement is accepted, and the three stored values are NaN,
    which is no fixed-point decimal with two decimal places. *)
Lemma nan_is_stored_as_money :
  run empty_db nan_statements = Ok nan_db /\
  Account.balance <$> accounts nan_db !! 5%N = Some NaN /\
  Transaction.amount <$> transactions nan_db !! 20%N = Some NaN /\
  Budget.amount <$> budgets nan_db !! 30%N = Some NaN /\
  ~ is_Numeric_15_2 NaN /\
  ~ (forall i a, accounts nan_db !! i = Some a ->
                 is_Numeric_15_2 (Account.balance a)).
Proof.
  split; [by vm_compute|]. do 3 (split; [reflexivity|]).
  split; [by intros []|].
  intros H. exact (H 5%N (with_balance NaN account_A) eq_refl).
Qed.

(** ** New accounts *)

(** C10, as amended.  An account is created from an owner, a name, a type
    and whichever of balance, currency and active flag are supplied.  It
    is stored whenever its key is unused, its owner exists and the
    supplied values fit their columns.  Whenever it is stored, a column
    that was not supplied holds its default -- balance Decimal("0.00"),
    currency "USD", active -- and a column that was supplied holds the
    supplied value: the flag as given, a currency of at most three
    characters as given, a finite balance brought to two fractional
    digits, a NaN balance as NaN. *)
Theorem new_account_defaults db (id : UUID) (i : Account.init) :
  (accounts db !! id = None ->
   is_Some (users db !! Account.init_user_id i) ->
   (String.length (Account.init_name i) <= 255)%nat ->
   (forall s, Account.init_currency i = Some s -> (String.length s <= 3)%nat) ->
   (forall d, Account.init_balance i = Some d ->
              d = NaN \/
              exists m e, d = mkDecimal m e /\ Z.abs (hundredths m e) < 10 ^ 15) ->
   exists db', insert_account db id (Account.new i) = Ok db') /\
  (forall db', insert_account db id (Account.new i) = Ok db' ->
     exists a, accounts db' !! id = Some a /\
       (Account.init_balance i = None -> Account.balance a = Decimal_0_00) /\
       (Account.init_is_active i = None -> Account.is_active a = true) /\
       (Account.init_currency i = None -> Account.currency a = "USD") /\
       (forall m e, Account.init_balance i = Some (mkDecimal m e) ->
                    Account.balance a = mkDecimal (hundredths m e) (-2)) /\
       (Account.init_balance i = Some NaN -> Account.balance a = NaN) /\
       (forall b, Account.init_is_active i = Some b -> Account.is_active a = b) /\
       (forall s, Account.init_currency i = Some s ->
                  (String.length s <= 3)%nat -> Account.currency a = s)).
Proof.
  split.
  - intros Hfresh Hu Ln Lc Hb.
    assert (exists d', Numeric_15_2 "accounts" "balance"
                         (Account.balance (Account.new i)) = Ok d') as [d' Hd'].
    { simpl. destruct (Account.init_balance i) as [d|]; simpl;
        [|by exists Decimal_0_00].
      destruct (Hb d eq_refl) as [->|(m & e & -> & Hlt)]; [by exists NaN|].
      eexists. by apply Numeric_15_2_Ok. }
    assert (fits 3 (Account.currency (Account.new i))) as Lc'.
    { simpl. destruct (Account.init_currency i) as [s|]; simpl; [by apply Lc|].
      unfold fits. simpl. lia. }
    eexists. apply insert_account_Ok.
    exists (Account.mk (Account.init_user_id i) (Account.init_name i)
              (Account.init_account_type i) d'
              (Account.currency (Account.new i)) (Account.is_active (Account.new i))).
    split; [|by split].
    apply coerce_account_Ok. simpl. rewrite !String_n_fits by done. done.
  - intros db' H. apply insert_account_Ok in H as (a & Hco & _ & _ & ->).
    apply coerce_account_Ok in Hco as (_ & _ & _ & Hb & Hc & Ha).
    exists a. simpl in *. rewrite lookup_insert_eq. split; [done|].
    split; [|split; [|split; [|split; [|split; [|split]]]]].
    + intros E. rewrite E in Hb. simpl in Hb. by injection Hb as <-.
    + intros E. by rewrite Ha, E.
    + intros E. rewrite E in Hc. simpl in Hc. by injection Hc as <-.
    + intros m e E. rewrite E in Hb. simpl in Hb.
      by apply (Numeric_15_2_Ok "accounts" "balance") in Hb as [_ ->].
    + intros E. rewrite E in Hb. simpl in Hb. by injection Hb as <-.
    + intros b E. by rewrite Ha, E.
    + intros s E Ls. rewrite E in Hc. simpl in Hc.
      apply String_n_Ok in Hc as [_ Hc]. by apply Hc.
Qed.

Lemma new_account_defaults_witness :
  exists db', insert_account one_user_db 5%N account_A = Ok db'.
Proof.
  apply (new_account_defaults one_user_db 5%N
           (Account.mk_init 1%N "A" CHECKING None None None));
    [reflexivity | by eexists | vm_compute; lia | discriminate | discriminate].
Defined.

Example new_account_stored :
  insert_account one_user_db 5%N account_A
  = Ok (put_account one_user_db 5%N
          (Account.mk 1%N "A" CHECKING (mkDecimal 0 (-2)) "USD" true)).
Proof. by vm_compute. Qed.

(** C10, as stated, fails.  An account opened with a balance of 5.00 and
    the active flag off is accepted and stored with that balance and that
    flag: not every newly created account has balance 0.00 or is
    active. *)
Lemma supplied_balance_is_stored :
  insert_account one_user_db 6%N (Account.new opened_with_balance)
  = Ok (put_account one_user_db 6%N
          (Account.mk 1%N "B" SAVINGS (mkDecimal 500 (-2)) "USD" false)) /\
  Account.balance <$>
    accounts (put_account one_user_db 6%N
                (Account.mk 1%N "B" SAVINGS (mkDecimal 500 (-2)) "USD" false)) !! 6%N
  = Some (mkDecimal 500 (-2)) /\
  mkDecimal 500 (-2) <> Decimal_0_00 /\
  Account.is_active <$>
    accounts (put_account one_user_db 6%N
                (Account.mk 1%N "B" SAVINGS (mkDecimal 500 (-2)) "USD" false)) !! 6%N
  = Some false.
Proof.
  split; [by vm_compute|]. split; [reflexivity|]. split; [discriminate|].
  reflexivity.
Qed.

(** ** The cascades on a sample state

    [budget_db] holds the user 1, the account 5, the system category
    "Food" (11) with the user's "Groceries" (10) below it, the purchase 20
    on account 5 in "Groceries", and the budget 30 on "Groceries". *)

(** Deleting the user leaves only the system category. *)
Example delete_user_budget_db :
  delete_user budget_db 1%N = mkDB ∅ ∅ {[ 11%N := food None ]} ∅ ∅.
Proof. by vm_compute. Qed.

(** Deleting "Food" takes "Groceries" and its budget along; the purchase
    stays, without a category. *)
Example delete_category_budget_db :
  delete_category budget_db 11%N
  = mkDB {[ 1%N := alice ]} {[ 5%N := account_A ]} ∅
         {[ 20%N := Transaction.set_category_id None purchase ]} ∅.
Proof. by vm_compute. Qed.

(** Deleting the account takes the purchase along and nothing else. *)
Example delete_account_budget_db :
  delete_account budget_db 5%N
  = mkDB {[ 1%N := alice ]} ∅
         (<[ 10%N := groceries (Some 11%N) ]> {[ 11%N := food None ]})
         ∅ {[ 30%N := groceries_budget ]}.
Proof. by vm_compute. Qed.

(** ** The column types on sample values *)

Example String_3_samples :
  String_n 3 "accounts" "currency" "US" = Ok "US"%string /\
  String_n 3 "accounts" "currency" "USD " = Ok "USD"%string /\
  String_n 3 "accounts" "currency" "USDX"
  = Err (DataError "accounts" "currency").
Proof. by vm_compute. Qed.

Example Numeric_15_2_special_values :
  Numeric_15_2 "accounts" "balance" NaN = Ok NaN /\
  Numeric_15_2 "accounts" "balance" (Infinity false)
  = Err (DataError "accounts" "balance") /\
  Numeric_15_2 "accounts" "balance" (Infinity true)
  = Err (DataError "accounts" "balance").
Proof. by vm_compute. Qed.

(** An UPDATE of a key that is not there still rejects a value that does
    not fit its column, and changes nothing when the values fit. *)
Example update_of_missing_key :
  update_account one_user_db 9%N
    (Account.mk 1%N "A" CHECKING Decimal_0_00 "EURO" true)
  = Err (DataError "accounts" "currency") /\
  update_account one_user_db 9%N account_A = Ok one_user_db.
Proof. by vm_compute. Qed.

(** A value with at most two fractional digits is stored as it is. *)
Lemma hundredths_exact m e :
  0 <= e + 2 -> hundredths m e = m * 10 ^ (e + 2).
Proof. intros H. unfold hundredths. by rewrite (proj2 (Z.leb_le _ _) H). Qed.

Example hundredths_rounds :
  hundredths 12345 (-3) = 1235 /\
  hundredths (-12345) (-3) = -1235 /\
  hundredths 12344 (-3) = 1234 /\
  hundredths 5 0 = 500.
Proof. by vm_compute. Qed.

(** * Further properties of the schema *)

(** ** A DELETE that triggers no [ondelete] action *)

Lemma set_null_empty x : set_null ∅ ∅ x = x.
Proof. apply set_null_not_referring; apply refers_in_empty. Qed.

Lemma fmap_fixed {A} (f : A -> A) (m : gmap UUID A) :
  (forall i x, m !! i = Some x -> f x = x) -> f <$> m = m.
Proof.
  intros H. apply map_eq. intros i. rewrite lookup_fmap.
  destruct (m !! i) as [x|] eqn:E; simpl; [|done]. by rewrite (H i x).
Qed.

(** When no row refers to the rows that are deleted, the deletion
    removes exactly these rows. *)
Lemma cascade_delete_unreferenced db (dU dA0 dC0 dT0 dB0 : gset UUID) :
  (forall i a, accounts db !! i = Some a -> Account.user_id a ∉ dU) ->
  (forall i c, transaction_categories db !! i = Some c ->
               ~ refers_in dU (TransactionCategory.user_id c)) ->
  (forall i b, budgets db !! i = Some b ->
               (Budget.user_id b ∉ dU) /\ (Budget.category_id b ∉ dC0)) ->
  (forall i x, transactions db !! i = Some x ->
               (Transaction.account_id x ∉ dA0) /\
               ~ refers_in dC0 (Transaction.category_id x) /\
               (i ∉ dT0 -> ~ refers_in dT0 (Transaction.linked_transaction_id x))) ->
  (forall i c, transaction_categories db !! i = Some c -> i ∉ dC0 ->
               ~ refers_in dC0 (TransactionCategory.parent_category_id c)) ->
  cascade_delete db dU dA0 dC0 dT0 dB0 =
  mkDB (filter (fun kv => kv.1 ∉ dU) (users db))
       (filter (fun kv => kv.1 ∉ dA0) (accounts db))
       (filter (fun kv => kv.1 ∉ dC0) (transaction_categories db))
       (filter (fun kv => kv.1 ∉ dT0) (transactions db))
       (filter (fun kv => kv.1 ∉ dB0) (budgets db)).
Proof.
  intros Ha Hc Hb Hx Hp. unfold cascade_delete.
  rewrite (dom_filter_none (fun kv => Account.user_id kv.2 ∈ _))
    by (intros i a Hi; simpl; eauto).
  rewrite (dom_filter_none (fun kv => refers_in _ (TransactionCategory.user_id kv.2)))
    by (intros i c Hi; simpl; eauto).
  rewrite !(right_id_L ∅ (∪)).
  assert (deleted_categories (transaction_categories db) dC0 = dC0) as ->.
  { apply cascade_categories_fix. intros x Hin.
    apply elem_of_subcategories_of in Hin as (c & p & Hc' & Hp' & HpS).
    destruct (decide (x ∈ dC0)) as [|Hn]; [done|].
    destruct (Hp x c Hc' Hn). by rewrite Hp'. }
  rewrite (dom_filter_none (fun kv => Transaction.account_id kv.2 ∈ _))
    by (intros i x Hi; simpl; by apply (Hx i x)).
  rewrite (dom_filter_none (fun kv => Budget.user_id kv.2 ∈ _ \/ _))
    by (intros i b Hi; simpl; destruct (Hb i b Hi); tauto).
  rewrite !(right_id_L ∅ (∪)). f_equal.
  apply fmap_fixed. intros i x Hi.
  apply filter_not_in_Some in Hi as [Hi Hn].
  destruct (Hx i x Hi) as (_ & H2 & H3).
  apply set_null_not_referring; auto.
Qed.

Lemma delete_budget_eq db i :
  delete_budget db i =
  mkDB (users db) (accounts db) (transaction_categories db) (transactions db)
       (delete i (budgets db)).
Proof.
  unfold delete_budget. rewrite cascade_delete_unreferenced.
  - by rewrite !filter_not_in_empty, filter_not_in_singleton.
  - set_solver.
  - intros; apply refers_in_empty.
  - set_solver.
  - intros j x _. split; [set_solver|]. split; [apply refers_in_empty|].
    intros _. apply refers_in_empty.
  - intros; apply refers_in_empty.
Qed.

Lemma delete_user_unreferenced db u :
  (forall i a, accounts db !! i = Some a -> Account.user_id a <> u) ->
  (forall i c, transaction_categories db !! i = Some c ->
               TransactionCategory.user_id c <> Some u) ->
  (forall i b, budgets db !! i = Some b -> Budget.user_id b <> u) ->
  delete_user db u =
  mkDB (delete u (users db)) (accounts db) (transaction_categories db)
       (transactions db) (budgets db).
Proof.
  intros Ha Hc Hb. unfold delete_user. rewrite cascade_delete_unreferenced.
  - by rewrite !filter_not_in_empty, filter_not_in_singleton.
  - intros i a Hi. specialize (Ha i a Hi). set_solver.
  - intros i c Hi. specialize (Hc i c Hi).
    destruct (TransactionCategory.user_id c); simpl; [|tauto].
    rewrite elem_of_singleton. congruence.
  - intros i b Hi. specialize (Hb i b Hi). set_solver.
  - intros j x _. split; [set_solver|]. split; [apply refers_in_empty|].
    intros _. apply refers_in_empty.
  - intros; apply refers_in_empty.
Qed.

Lemma delete_account_unreferenced db a :
  (forall i x, transactions db !! i = Some x -> Transaction.account_id x <> a) ->
  delete_account db a =
  mkDB (users db) (delete a (accounts db)) (transaction_categories db)
       (transactions db) (budgets db).
Proof.
  intros Hx. unfold delete_account. rewrite cascade_delete_unreferenced.
  - by rewrite !filter_not_in_empty, filter_not_in_singleton.
  - set_solver.
  - intros; apply refers_in_empty.
  - set_solver.
  - intros j x Hj. specialize (Hx j x Hj).
    split; [set_solver|]. split; [apply refers_in_empty|].
    intros _. apply refers_in_empty.
  - intros; apply refers_in_empty.
Qed.

Lemma delete_category_unreferenced db c :
  (forall i r, transaction_categories db !! i = Some r -> i <> c ->
               TransactionCategory.parent_category_id r <> Some c) ->
  (forall i x, transactions db !! i = Some x ->
               Transaction.category_id x <> Some c) ->
  (forall i b, budgets db !! i = Some b -> Budget.category_id b <> c) ->
  delete_category db c =
  mkDB (users db) (accounts db) (delete c (transaction_categories db))
       (transactions db) (budgets db).
Proof.
  intros Hp Hx Hb. unfold delete_category. rewrite cascade_delete_unreferenced.
  - by rewrite !filter_not_in_empty, filter_not_in_singleton.
  - set_solver.
  - intros; apply refers_in_empty.
  - intros i b Hi. specialize (Hb i b Hi). set_solver.
  - intros j x Hj. specialize (Hx j x Hj).
    split; [set_solver|]. split.
    + destruct (Transaction.category_id x); simpl; [|tauto].
    rewrite elem_of_singleton. congruence.
    + intros _. apply refers_in_empty.
  - intros i r Hi Hn. assert (i <> c) as Hne by set_solver.
    specialize (Hp i r Hi Hne).
    destruct (TransactionCategory.parent_category_id r); simpl; [|tauto].
    rewrite elem_of_singleton. congruence.
Qed.

Lemma delete_transaction_unreferenced db t :
  (forall i x, transactions db !! i = Some x -> i <> t ->
               Transaction.linked_transaction_id x <> Some t) ->
  delete_transaction db t =
  mkDB (users db) (accounts db) (transaction_categories db)
       (delete t (transactions db)) (budgets db).
Proof.
  intros Hl. unfold delete_transaction. rewrite cascade_delete_unreferenced.
  - by rewrite !filter_not_in_empty, filter_not_in_singleton.
  - set_solver.
  - intros; apply refers_in_empty.
  - set_solver.
  - intros j x Hj. split; [set_solver|]. split; [apply refers_in_empty|].
    intros Hn. assert (j <> t) as Hne by set_solver.
    specialize (Hl j x Hj Hne).
    destruct (Transaction.linked_transaction_id x); simpl; [|tauto].
    rewrite elem_of_singleton. congruence.
  - intros; apply refers_in_empty.
Qed.

Lemma DB_eta db :
  mkDB (users db) (accounts db) (transaction_categories db) (transactions db)
       (budgets db) = db.
Proof. by destruct db. Qed.

(** In a consistent state nothing refers to a key that is not there. *)
Lemma is_Some_None_ne {A} (m : gmap UUID A) (k id : UUID) :
  is_Some (m !! k) -> m !! id = None -> k <> id.
Proof. intros [x Hx] Hn ->. congruence. Qed.

Lemma delete_missing_consistent db (id : UUID) :
  consistent db ->
  (users db !! id = None -> delete_user db id = db) /\
  (accounts db !! id = None -> delete_account db id = db) /\
  (transaction_categories db !! id = None -> delete_category db id = db) /\
  (transactions db !! id = None -> delete_transaction db id = db) /\
  (budgets db !! id = None -> delete_budget db id = db).
Proof.
  intros Hc. repeat split; intros Hn.
  - rewrite delete_user_unreferenced.
    + rewrite delete_id by done. apply DB_eta.
    + intros i a Hi. apply (is_Some_None_ne (users db)); [|done].
      exact (accounts_user_fk db Hc i a Hi).
    + intros i c Hi Hu. apply (is_Some_None_ne (users db) id id); [|done|done].
      exact (categories_user_fk db Hc i c id Hi Hu).
    + intros i b Hi. apply (is_Some_None_ne (users db)); [|done].
      exact (budgets_user_fk db Hc i b Hi).
  - rewrite delete_account_unreferenced.
    + rewrite delete_id by done. apply DB_eta.
    + intros i x Hi. apply (is_Some_None_ne (accounts db)); [|done].
      exact (transactions_account_fk db Hc i x Hi).
  - rewrite delete_category_unreferenced.
    + rewrite delete_id by done. apply DB_eta.
    + intros i r Hi _ Hp.
      apply (is_Some_None_ne (transaction_categories db) id id); [|done|done].
      exact (categories_parent_fk db Hc i r id Hi Hp).
    + intros i x Hi Hx.
      apply (is_Some_None_ne (transaction_categories db) id id); [|done|done].
      exact (transactions_category_fk db Hc i x id Hi Hx).
    + intros i b Hi. apply (is_Some_None_ne (transaction_categories db)); [|done].
      exact (budgets_category_fk db Hc i b Hi).
  - rewrite delete_transaction_unreferenced.
    + rewrite delete_id by done. apply DB_eta.
    + intros i x Hi _ Hl.
      apply (is_Some_None_ne (transactions db) id id); [|done|done].
      exact (transactions_linked_fk db Hc i x id Hi Hl).
  - rewrite delete_budget_eq, delete_id by done. apply DB_eta.
Qed.

(** X1.  Deleting a key that is not in its table leaves a reachable state
    exactly as it is, for each of the five tables. *)
Theorem delete_of_missing_key_changes_nothing db (id : UUID) :
  reachable db ->
  (users db !! id = None -> delete_user db id = db) /\
  (accounts db !! id = None -> delete_account db id = db) /\
  (transaction_categories db !! id = None -> delete_category db id = db) /\
  (transactions db !! id = None -> delete_transaction db id = db) /\
  (budgets db !! id = None -> delete_budget db id = db).
Proof. intros Hr. by apply delete_missing_consistent, reachable_consistent. Qed.

Lemma delete_of_missing_key_changes_nothing_witness :
  delete_user budget_db 7%N = budget_db /\
  delete_account budget_db 7%N = budget_db /\
  delete_category budget_db 7%N = budget_db /\
  delete_transaction budget_db 7%N = budget_db /\
  delete_budget budget_db 7%N = budget_db.
Proof.
  destruct (delete_of_missing_key_changes_nothing budget_db 7%N budget_db_reachable)
    as (H1 & H2 & H3 & H4 & H5).
  exact (conj (H1 eq_refl) (conj (H2 eq_refl) (conj (H3 eq_refl)
          (conj (H4 eq_refl) (H5 eq_refl))))).
Defined.

(** ** INSERT followed by DELETE *)

Lemma insert_user_inv db id u db' :
  insert_user db id u = Ok db' ->
  exists u', users db !! id = None /\ db' = put_user db id u'.
Proof. intros H. apply insert_user_Ok in H as (u' & _ & ? & _ & ?). eauto. Qed.

Lemma insert_account_inv db id a db' :
  insert_account db id a = Ok db' ->
  exists a', accounts db !! id = None /\ db' = put_account db id a'.
Proof. intros H. apply insert_account_Ok in H as (a' & _ & ? & _ & ?). eauto. Qed.

Lemma insert_category_inv db id c db' :
  insert_category db id c = Ok db' ->
  exists c', transaction_categories db !! id = None /\ db' = put_category db id c'.
Proof. intros H. apply insert_category_Ok in H as (c' & _ & ? & _ & ?). eauto. Qed.

Lemma insert_transaction_inv db id x db' :
  insert_transaction db id x = Ok db' ->
  exists x', transactions db !! id = None /\ db' = put_transaction db id x'.
Proof.
  intros H. apply insert_transaction_Ok in H as (x' & _ & ? & _ & ?). eauto.
Qed.

Lemma insert_budget_inv db id b db' :
  insert_budget db id b = Ok db' ->
  exists b', budgets db !! id = None /\ db' = put_budget db id b'.
Proof. intros H. apply insert_budget_Ok in H as (b' & _ & ? & _ & ?). eauto. Qed.

Lemma insert_then_delete_consistent db (id : UUID) db' :
  consistent db ->
  (forall u, insert_user db id u = Ok db' -> delete_user db' id = db) /\
  (forall a, insert_account db id a = Ok db' -> delete_account db' id = db) /\
  (forall c, insert_category db id c = Ok db' -> delete_category db' id = db) /\
  (forall x, insert_transaction db id x = Ok db' -> delete_transaction db' id = db) /\
  (forall b, insert_budget db id b = Ok db' -> delete_budget db' id = db).
Proof.
  intros Hc. repeat split.
  - intros u H. apply insert_user_inv in H as (u' & Hn & ->).
    rewrite delete_user_unreferenced; simpl.
    + rewrite delete_insert_id by done. apply DB_eta.
    + intros i a Hi. apply (is_Some_None_ne (users db)); [|done].
      exact (accounts_user_fk db Hc i a Hi).
    + intros i c Hi Hu. apply (is_Some_None_ne (users db) id id); [|done|done].
      exact (categories_user_fk db Hc i c id Hi Hu).
    + intros i b Hi. apply (is_Some_None_ne (users db)); [|done].
      exact (budgets_user_fk db Hc i b Hi).
  - intros a H. apply insert_account_inv in H as (a' & Hn & ->).
    rewrite delete_account_unreferenced; simpl.
    + rewrite delete_insert_id by done. apply DB_eta.
    + intros i x Hi. apply (is_Some_None_ne (accounts db)); [|done].
      exact (transactions_account_fk db Hc i x Hi).
  - intros c H. apply insert_category_inv in H as (c' & Hn & ->).
    rewrite delete_category_unreferenced; simpl.
    + rewrite delete_insert_id by done. apply DB_eta.
    + intros i r Hi Hne Hp. rewrite lookup_insert_ne in Hi by done.
      apply (is_Some_None_ne (transaction_categories db) id id); [|done|done].
      exact (categories_parent_fk db Hc i r id Hi Hp).
    + intros i x Hi Hx.
      apply (is_Some_None_ne (transaction_categories db) id id); [|done|done].
      exact (transactions_category_fk db Hc i x id Hi Hx).
    + intros i b Hi. apply (is_Some_None_ne (transaction_categories db)); [|done].
      exact (budgets_category_fk db Hc i b Hi).
  - intros x H. apply insert_transaction_inv in H as (x' & Hn & ->).
    rewrite delete_transaction_unreferenced; simpl.
    + rewrite delete_insert_id by done. apply DB_eta.
    + intros i y Hi Hne Hl. rewrite lookup_insert_ne in Hi by done.
      apply (is_Some_None_ne (transactions db) id id); [|done|done].
      exact (transactions_linked_fk db Hc i y id Hi Hl).
  - intros b H. apply insert_budget_inv in H as (b' & Hn & ->).
    rewrite delete_budget_eq; simpl.
    rewrite delete_insert_id by done. apply DB_eta.
Qed.

(** X2.  In a reachable state, inserting a row and then deleting its key
    gives back the state from before the insertion, for each of the five
    tables: a row that was just written has no dependants, so its
    deletion triggers no cascade and clears no reference. *)
Theorem insert_then_delete_restores db (id : UUID) db' :
  reachable db ->
  (forall u, insert_user db id u = Ok db' -> delete_user db' id = db) /\
  (forall a, insert_account db id a = Ok db' -> delete_account db' id = db) /\
  (forall c, insert_category db id c = Ok db' -> delete_category db' id = db) /\
  (forall x, insert_transaction db id x = Ok db' -> delete_transaction db' id = db) /\
  (forall b, insert_budget db id b = Ok db' -> delete_budget db' id = db).
Proof. intros Hr. by apply insert_then_delete_consistent, reachable_consistent. Qed.

Lemma insert_then_delete_restores_witness :
  delete_budget twice_db 31%N = budget_db.
Proof.
  apply (insert_then_delete_restores budget_db 31%N twice_db budget_db_reachable)
    with (b := groceries_budget).
  by vm_compute.
Defined.

(** ** DELETE twice *)

(** X3.  In a reachable state, deleting the same key a second time changes
    nothing, for each of the five tables: the first deletion leaves no
    row, and no reference, behind. *)
Theorem delete_is_idempotent db (id : UUID) :
  reachable db ->
  delete_user (delete_user db id) id = delete_user db id /\
  delete_account (delete_account db id) id = delete_account db id /\
  delete_category (delete_category db id) id = delete_category db id /\
  delete_transaction (delete_transaction db id) id = delete_transaction db id /\
  delete_budget (delete_budget db id) id = delete_budget db id.
Proof.
  intros Hr. apply reachable_consistent in Hr.
  repeat split.
  - apply delete_missing_consistent; [by apply cascade_delete_consistent|].
    apply map_lookup_filter_None. right. intros ? _. simpl. set_solver.
  - apply delete_missing_consistent; [by apply cascade_delete_consistent|].
    apply map_lookup_filter_None. right. intros ? _. simpl. set_solver.
  - apply delete_missing_consistent; [by apply cascade_delete_consistent|].
    apply map_lookup_filter_None. right. intros ? _. simpl.
    intros Hn. apply Hn, deleted_categories_incl. set_solver.
  - apply delete_missing_consistent; [by apply cascade_delete_consistent|].
    simpl. rewrite lookup_fmap.
    match goal with |- _ <$> ?o = None => assert (o = None) as ->; [|done] end.
    apply map_lookup_filter_None. right. intros ? _. simpl. set_solver.
  - apply delete_missing_consistent; [by apply cascade_delete_consistent|].
    apply map_lookup_filter_None. right. intros ? _. simpl. set_solver.
Qed.

Lemma delete_is_idempotent_witness :
  delete_user (delete_user budget_db 1%N) 1%N = delete_user budget_db 1%N /\
  delete_account (delete_account budget_db 1%N) 1%N = delete_account budget_db 1%N /\
  delete_category (delete_category budget_db 1%N) 1%N
  = delete_category budget_db 1%N /\
  delete_transaction (delete_transaction budget_db 1%N) 1%N
  = delete_transaction budget_db 1%N /\
  delete_budget (delete_budget budget_db 1%N) 1%N = delete_budget budget_db 1%N.
Proof. exact (delete_is_idempotent budget_db 1%N budget_db_reachable). Defined.

(** ** What the cascades reach, and what they spare *)

(** X4.  The cascade along [parent_category_id] deletes exactly the
    categories named for deletion and their subcategories at any depth --
    no more and no less, also when the parent links run in a cycle. *)
Theorem deleted_categories_are_the_descendants
    (cats : gmap UUID TransactionCategory.t) (S : gset UUID) (x : UUID) :
  x ∈ deleted_categories cats S <-> exists c, c ∈ S /\ descends cats c x.
Proof.
  split.
  - apply cascade_categories_descends.
  - intros (c & Hc & Hd). by eapply descends_deleted.
Qed.

(** X5.  Deleting a category spares everything outside its subtree: a
    category is still there afterwards exactly when it was there and does
    not descend from the deleted one, a budget exactly when its category
    does not, and the users and accounts are untouched. *)
Theorem delete_category_spares_the_rest db (c : UUID) :
  users (delete_category db c) = users db /\
  accounts (delete_category db c) = accounts db /\
  (forall x r, transaction_categories (delete_category db c) !! x = Some r <->
               transaction_categories db !! x = Some r /\
               ~ descends (transaction_categories db) c x) /\
  (forall i b, budgets (delete_category db c) !! i = Some b <->
               budgets db !! i = Some b /\
               ~ descends (transaction_categories db) c (Budget.category_id b)).
Proof.
  rewrite delete_category_eq. simpl.
  assert (forall x, x ∈ deleted_categories (transaction_categories db) {[c]}
                    <-> descends (transaction_categories db) c x) as Hd.
  { intros x. split.
    - intros H. apply cascade_categories_descends in H as (c' & Hc' & H).
      apply elem_of_singleton in Hc' as ->. done.
    - intros H. eapply descends_deleted; [|done]. set_solver. }
  split; [done|]. split; [done|]. split.
  - intros x r. rewrite map_lookup_filter_Some. simpl. by rewrite Hd.
  - intros i b. rewrite map_lookup_filter_Some. simpl. by rewrite Hd.
Qed.

Lemma delete_account_eq db a :
  let dT := dom (filter (fun kv => Transaction.account_id kv.2 ∈ ({[a]} : gset UUID))
                        (transactions db)) in
  delete_account db a =
  mkDB (users db) (delete a (accounts db)) (transaction_categories db)
       (set_null ∅ dT <$> filter (fun kv => kv.1 ∉ dT) (transactions db))
       (budgets db).
Proof.
  intros dT. unfold delete_account, cascade_delete.
  rewrite (dom_filter_none (fun kv => Account.user_id kv.2 ∈ _)) by set_solver.
  rewrite (dom_filter_none (fun kv => refers_in _ (TransactionCategory.user_id kv.2)))
    by (intros; apply refers_in_empty).
  rewrite !(left_id_L ∅ (∪)), !(right_id_L ∅ (∪)), deleted_categories_empty.
  rewrite (dom_filter_none (fun kv => Budget.user_id kv.2 ∈ _ \/ _)) by set_solver.
  rewrite !filter_not_in_empty, filter_not_in_singleton. done.
Qed.

(** X6.  Deleting an account removes the account and the transactions on
    it, and nothing else: users, categories and budgets are untouched,
    every other account keeps its row (balance included), and a
    transaction on another account stays -- unchanged, or with its link
    cleared when it was linked to a transaction of the deleted account. *)
Theorem delete_account_cascades db (a : UUID) :
  users (delete_account db a) = users db /\
  accounts (delete_account db a) = delete a (accounts db) /\
  transaction_categories (delete_account db a) = transaction_categories db /\
  budgets (delete_account db a) = budgets db /\
  (forall i x, transactions db !! i = Some x ->
     Transaction.account_id x = a ->
     transactions (delete_account db a) !! i = None) /\
  (forall i x, transactions db !! i = Some x ->
     Transaction.account_id x <> a ->
     (forall l z, Transaction.linked_transaction_id x = Some l ->
                  transactions db !! l = Some z ->
                  Transaction.account_id z = a ->
                  transactions (delete_account db a) !! i
                  = Some (Transaction.set_linked_transaction_id None x)) /\
     ((forall l z, Transaction.linked_transaction_id x = Some l ->
                   transactions db !! l = Some z ->
                   Transaction.account_id z <> a) ->
      transactions (delete_account db a) !! i = Some x)).
Proof.
  rewrite delete_account_eq. simpl.
  set (dT := dom (filter (fun kv => Transaction.account_id kv.2 ∈ ({[a]} : gset UUID))
                         (transactions db))).
  assert (forall i, i ∈ dT <-> exists x, transactions db !! i = Some x /\
                                          Transaction.account_id x = a) as HdT.
  { intros i. unfold dT. rewrite elem_of_dom. unfold is_Some.
    setoid_rewrite map_lookup_filter_Some. simpl.
    setoid_rewrite elem_of_singleton. done. }
  do 4 (split; [done|]). split.
  - intros i x Hi Ha. rewrite lookup_fmap.
    match goal with |- _ <$> ?o = None => assert (o = None) as ->; [|done] end.
    apply map_lookup_filter_None. right. intros ? _ Hn. apply Hn. simpl.
    apply HdT. eauto.
  - intros i x Hi Hne.
    assert (filter (fun kv => kv.1 ∉ dT) (transactions db) !! i = Some x) as Hf.
    { apply filter_not_in_Some. split; [done|]. rewrite HdT.
      intros (x' & Hx' & Ha). congruence. }
    rewrite lookup_fmap, Hf. simpl. split.
    + intros l z Hl Hz Ha. f_equal.
      unfold set_null, Transaction.set_linked_transaction_id. rewrite Hl.
      rewrite (decide_False (P := refers_in ∅ _)) by apply refers_in_empty.
      rewrite decide_True by (simpl; apply HdT; eauto). done.
    + intros Hall. f_equal. apply set_null_not_referring; [apply refers_in_empty|].
      destruct (Transaction.linked_transaction_id x) as [l|] eqn:El; simpl; [|tauto].
      rewrite HdT. intros (z & Hz & Ha). by apply (Hall l z).
Qed.

(** X7.  Deleting a user spares the other users' rows: the other users
    are untouched, an account is still there afterwards exactly when it
    was there and belongs to another user (its row, balance included,
    unchanged), and a transaction is still there exactly when its account
    is. *)
Theorem delete_user_spares_other_users db (u : UUID) :
  users (delete_user db u) = delete u (users db) /\
  (forall i a, accounts (delete_user db u) !! i = Some a <->
               accounts db !! i = Some a /\ Account.user_id a <> u) /\
  (forall i, is_Some (transactions (delete_user db u) !! i) <->
             exists x, transactions db !! i = Some x /\
                       forall a, accounts db !! Transaction.account_id x = Some a ->
                                 Account.user_id a <> u).
Proof.
  unfold delete_user, cascade_delete. simpl.
  rewrite !(left_id_L ∅ (∪)).
  set (dA := dom (filter (fun kv => Account.user_id kv.2 ∈ ({[u]} : gset UUID))
                         (accounts db))).
  assert (forall i, i ∈ dA <-> exists a, accounts db !! i = Some a /\
                                          Account.user_id a = u) as HdA.
  { intros i. unfold dA. rewrite elem_of_dom. unfold is_Some.
    setoid_rewrite map_lookup_filter_Some. simpl.
    setoid_rewrite elem_of_singleton. done. }
  split; [apply filter_not_in_singleton|]. split.
  - intros i a. rewrite filter_not_in_Some, HdA. split.
    + intros [Hi Hn]. split; [done|]. intros Hu. apply Hn. eauto.
    + intros [Hi Hn]. split; [done|]. intros (a' & Ha' & Hu). congruence.
  - intros i. rewrite lookup_fmap, fmap_is_Some. unfold is_Some.
    setoid_rewrite filter_not_in_Some.
    setoid_rewrite elem_of_dom. unfold is_Some.
    setoid_rewrite map_lookup_filter_Some. simpl.
    split.
    + intros (x & Hx & Hn). exists x. split; [done|].
      intros a Ha Hu. apply Hn. exists x. split; [done|]. apply HdA. eauto.
    + intros (x & Hx & Hall). exists x. split; [done|].
      intros (x' & Hx' & Hin). assert (x' = x) as -> by congruence.
      apply HdA in Hin as (a & Ha & Hu). by apply (Hall a).
Qed.

(** ** Uniqueness of e-mail addresses *)

(** X8.  In every reachable state no two users carry the same e-mail
    string, whichever inserts, updates and deletes led there. *)
Theorem emails_are_unique db (i j : UUID) (u v : User.t) :
  reachable db ->
  users db !! i = Some u -> users db !! j = Some v ->
  User.email u = User.email v -> i = j.
Proof.
  intros Hr. apply reachable_consistent in Hr.
  exact (users_email_unique db Hr i j u v).
Qed.

Lemma emails_are_unique_witness : 1%N = 1%N.
Proof.
  apply (emails_are_unique budget_db 1%N 1%N alice alice budget_db_reachable);
    reflexivity.
Defined.

Lemma email_unique_present (m : gmap UUID User.t) id u :
  email_unique m id u <->
  forall j v, j <> id -> m !! j = Some v -> User.email v <> User.email u.
Proof.
  unfold email_unique, map_Forall. split.
  - intros H j v Hne Hj. destruct (H j v Hj) as [->|?]; done.
  - intros H j v Hj. destruct (decide (j = id)) as [->|Hne]; [by left|right].
    by apply (H j v).
Qed.

(** X9.  Editing a stored user, with columns that fit [String(255)],
    fails with the unique violation on [users.email] when another user
    already has the new e-mail, and is accepted otherwise -- in
    particular when the e-mail is left as it is. *)
Theorem update_user_duplicate_email db (id : UUID) (u : User.t) :
  is_Some (users db !! id) ->
  (String.length (User.email u) <= 255)%nat ->
  (String.length (User.hashed_password u) <= 255)%nat ->
  (String.length (User.full_name u) <= 255)%nat ->
  ((exists j v, j <> id /\ users db !! j = Some v /\ User.email v = User.email u) ->
   update_user db id u = Err (IntegrityError_unique "users" "email")) /\
  ((forall j v, j <> id -> users db !! j = Some v -> User.email v <> User.email u) ->
   update_user db id u = Ok (put_user db id u)).
Proof.
  intros Hex Le Lp Ln.
  assert (coerce_user u = Ok u) as Hco by by apply coerce_user_fits_Ok.
  unfold update_user, constraints_user. rewrite Hco. simpl.
  rewrite bool_decide_eq_true_2 by done. split.
  - intros (j & v & Hne & Hj & He). rewrite bool_decide_eq_false_2; [done|].
    intros Hu. by apply (proj1 (email_unique_present _ _ _) Hu j v).
  - intros Hall. rewrite bool_decide_eq_true_2; [done|].
    by apply email_unique_present.
Qed.

Lemma update_user_duplicate_email_witness :
  update_user (put_user one_user_db 2%N alice_again) 2%N alice
  = Err (IntegrityError_unique "users" "email").
Proof.
  apply (update_user_duplicate_email (put_user one_user_db 2%N alice_again)
           2%N alice);
    [by eexists | vm_compute; lia | vm_compute; lia | vm_compute; lia |].
  exists 1%N, alice. split; [discriminate|]. split; reflexivity.
Defined.

(** ** Ownership and references in reachable states *)

(** X10.  In every reachable state every account and every budget has an
    owner that exists, and every transaction sits on an account that
    exists and whose owner exists: each of these rows belongs to one
    stored user. *)
Theorem every_row_has_an_owner db :
  reachable db ->
  (forall i a, accounts db !! i = Some a ->
               exists u, users db !! Account.user_id a = Some u) /\
  (forall i b, budgets db !! i = Some b ->
               exists u, users db !! Budget.user_id b = Some u) /\
  (forall i x, transactions db !! i = Some x ->
               exists a u, accounts db !! Transaction.account_id x = Some a /\
                           users db !! Account.user_id a = Some u).
Proof.
  intros Hr. apply reachable_consistent in Hr. repeat split.
  - intros i a Hi. exact (accounts_user_fk db Hr i a Hi).
  - intros i b Hi. exact (budgets_user_fk db Hr i b Hi).
  - intros i x Hi. destruct (transactions_account_fk db Hr i x Hi) as [a Ha].
    destruct (accounts_user_fk db Hr _ a Ha) as [u Hu]. eauto.
Qed.

Lemma every_row_has_an_owner_witness :
  exists a u, accounts budget_db !! Transaction.account_id purchase = Some a /\
              users budget_db !! Account.user_id a = Some u.
Proof.
  destruct (every_row_has_an_owner budget_db budget_db_reachable) as (_ & _ & H).
  exact (H 20%N purchase eq_refl).
Defined.

(** X11.  In every reachable state the category of a transaction, when
    set, and the category of a budget exist. *)
Theorem category_references_exist db :
  reachable db ->
  (forall i x c, transactions db !! i = Some x ->
                 Transaction.category_id x = Some c ->
                 exists r, transaction_categories db !! c = Some r) /\
  (forall i b, budgets db !! i = Some b ->
               exists r, transaction_categories db !! Budget.category_id b = Some r).
Proof.
  intros Hr. apply reachable_consistent in Hr. split.
  - intros i x c Hi Hc. exact (transactions_category_fk db Hr i x c Hi Hc).
  - intros i b Hi. exact (budgets_category_fk db Hr i b Hi).
Qed.

Lemma category_references_exist_witness :
  exists r, transaction_categories budget_db !! 10%N = Some r.
Proof.
  destruct (category_references_exist budget_db budget_db_reachable) as [H _].
  exact (H 20%N purchase 10%N eq_refl eq_refl).
Defined.

(** ** Rejected writes *)

(** X12.  A write is accepted only if every row it refers to is in the
    state it is applied to: the owner of an account; the account, the
    category and the linked transaction of a transaction; the owner and
    the parent of a category; the owner and the category of a budget.
    (The two self-references may also name the written row itself.)  A
    write that names a missing row is therefore never accepted. *)
Theorem accepted_writes_refer_to_existing_rows db (id : UUID) db' :
  (forall a, insert_account db id a = Ok db' ->
     is_Some (users db !! Account.user_id a)) /\
  (forall x, insert_transaction db id x = Ok db' ->
     is_Some (accounts db !! Transaction.account_id x) /\
     (forall c, Transaction.category_id x = Some c ->
                is_Some (transaction_categories db !! c)) /\
     (forall l, Transaction.linked_transaction_id x = Some l ->
                l = id \/ is_Some (transactions db !! l))) /\
  (forall c, insert_category db id c = Ok db' ->
     (forall u, TransactionCategory.user_id c = Some u -> is_Some (users db !! u)) /\
     (forall p, TransactionCategory.parent_category_id c = Some p ->
                p = id \/ is_Some (transaction_categories db !! p))) /\
  (forall b, insert_budget db id b = Ok db' ->
     is_Some (users db !! Budget.user_id b) /\
     is_Some (transaction_categories db !! Budget.category_id b)).
Proof.
  split; [|split; [|split]].
  - intros a H. apply insert_account_Ok in H as (a' & Hco & _ & Hu & _).
    apply coerce_account_Ok in Hco as (E & _). by rewrite <- E.
  - intros x H. apply insert_transaction_Ok in H as (x' & Hco & _ & Hk & _).
    apply constraints_transaction_Ok in Hk as (Ha & Hc & Hl).
    apply coerce_transaction_Ok in Hco as (E1 & E2 & _ & _ & _ & _ & _ & E3).
    rewrite E1 in Ha. rewrite E2 in Hc. rewrite E3 in Hl.
    split; [done|]. split; [done|]. intros l El.
    specialize (Hl l El). apply lookup_insert_is_Some in Hl as [?|[_ ?]];
      [left; congruence|by right].
  - intros c H. apply insert_category_Ok in H as (c' & Hco & _ & Hk & _).
    apply constraints_category_Ok in Hk as (Hu & Hp).
    apply coerce_category_Ok in Hco as (E1 & _ & _ & _ & _ & _ & E2).
    rewrite E1 in Hu. rewrite E2 in Hp.
    split; [done|]. intros p Ep.
    specialize (Hp p Ep). apply lookup_insert_is_Some in Hp as [?|[_ ?]];
      [left; congruence|by right].
  - intros b H. apply insert_budget_Ok in H as (b' & Hco & _ & Hk & _).
    apply constraints_budget_Ok in Hk as (Hu & Hc).
    apply coerce_budget_Ok in Hco as (_ & E). rewrite E in Hu, Hc. done.
Qed.

(** X13.  An INSERT under a key that is already used is never accepted,
    in any of the five tables: a stored row is never overwritten by an
    INSERT. *)
Theorem insert_never_overwrites db (id : UUID) db' :
  (is_Some (users db !! id) -> forall u, insert_user db id u <> Ok db') /\
  (is_Some (accounts db !! id) -> forall a, insert_account db id a <> Ok db') /\
  (is_Some (transaction_categories db !! id) ->
   forall c, insert_category db id c <> Ok db') /\
  (is_Some (transactions db !! id) ->
   forall x, insert_transaction db id x <> Ok db') /\
  (is_Some (budgets db !! id) -> forall b, insert_budget db id b <> Ok db').
Proof.
  repeat split; intros [r Hr] ? H.
  - apply insert_user_inv in H as (? & Hn & _). congruence.
  - apply insert_account_inv in H as (? & Hn & _). congruence.
  - apply insert_category_inv in H as (? & Hn & _). congruence.
  - apply insert_transaction_inv in H as (? & Hn & _). congruence.
  - apply insert_budget_inv in H as (? & Hn & _). congruence.
Qed.

(** ** What a statement leaves alone *)

Lemma cascade_delete_subseteq db dU dA0 dC0 dT0 dB0 :
  users (cascade_delete db dU dA0 dC0 dT0 dB0) ⊆ users db /\
  accounts (cascade_delete db dU dA0 dC0 dT0 dB0) ⊆ accounts db /\
  transaction_categories (cascade_delete db dU dA0 dC0 dT0 dB0)
    ⊆ transaction_categories db /\
  budgets (cascade_delete db dU dA0 dC0 dT0 dB0) ⊆ budgets db.
Proof. unfold cascade_delete. simpl. repeat split; apply map_filter_subseteq. Qed.

Lemma cascade_delete_transaction_kept db dU dA0 dC0 dT0 dB0 i y :
  transactions (cascade_delete db dU dA0 dC0 dT0 dB0) !! i = Some y ->
  exists x, transactions db !! i = Some x /\
    Transaction.account_id y = Transaction.account_id x /\
    Transaction.amount y = Transaction.amount x /\
    Transaction.transaction_type y = Transaction.transaction_type x /\
    Transaction.description y = Transaction.description x /\
    Transaction.transaction_date y = Transaction.transaction_date x /\
    Transaction.notes y = Transaction.notes x /\
    (Transaction.category_id y = Transaction.category_id x \/
     Transaction.category_id y = None) /\
    (Transaction.linked_transaction_id y = Transaction.linked_transaction_id x \/
     Transaction.linked_transaction_id y = None).
Proof.
  unfold cascade_delete. simpl. intros Hy.
  apply lookup_fmap_Some in Hy as (x & <- & Hx).
  apply filter_not_in_Some in Hx as [Hx _]. exists x. simpl.
  do 7 (split; [done|]). split; case_decide; auto.
Qed.

(** X14.  No DELETE alters a row it leaves in place.  Whatever is still in
    the users, accounts, categories or budgets table afterwards is a row
    that was there before, unchanged (so no balance and no budget amount
    moves); a transaction that is still there keeps its account, amount,
    type, description, date and notes, and its category and link are
    either kept or cleared. *)
Theorem delete_leaves_surviving_rows_unaltered db (id : UUID) (s : statement) db' :
  s ∈ deletes id ->
  execute db s = Ok db' ->
  users db' ⊆ users db /\
  accounts db' ⊆ accounts db /\
  transaction_categories db' ⊆ transaction_categories db /\
  budgets db' ⊆ budgets db /\
  (forall i y, transactions db' !! i = Some y ->
     exists x, transactions db !! i = Some x /\
       Transaction.account_id y = Transaction.account_id x /\
       Transaction.amount y = Transaction.amount x /\
       Transaction.transaction_type y = Transaction.transaction_type x /\
       Transaction.description y = Transaction.description x /\
       Transaction.transaction_date y = Transaction.transaction_date x /\
       Transaction.notes y = Transaction.notes x /\
       (Transaction.category_id y = Transaction.category_id x \/
        Transaction.category_id y = None) /\
       (Transaction.linked_transaction_id y = Transaction.linked_transaction_id x \/
        Transaction.linked_transaction_id y = None)).
Proof.
  intros Hs He.
  assert (exists dU dA0 dC0 dT0 dB0, db' = cascade_delete db dU dA0 dC0 dT0 dB0)
    as (dU & dA0 & dC0 & dT0 & dB0 & ->).
  { unfold deletes in Hs. rewrite !elem_of_cons in Hs.
    destruct Hs as [->|[->|[->|[->|[->|Hs]]]]];
      [..|by apply elem_of_nil in Hs];
      simpl in He; injection He as <-; by do 5 eexists. }
  pose proof (cascade_delete_subseteq db dU dA0 dC0 dT0 dB0) as (? & ? & ? & ?).
  do 4 (split; [done|]).
  intros i y. apply cascade_delete_transaction_kept.
Qed.

Lemma delete_leaves_surviving_rows_unaltered_witness :
  accounts (delete_transaction transfer_db 20%N) ⊆ accounts transfer_db.
Proof.
  apply (delete_leaves_surviving_rows_unaltered transfer_db 20%N
           (DeleteTransaction 20%N) (delete_transaction transfer_db 20%N)).
  - unfold deletes. rewrite !elem_of_cons. tauto.
  - reflexivity.
Defined.

(** X15.  Only an INSERT or UPDATE of the accounts table itself can add or
    change an account row: after any other accepted statement every
    account that is stored was stored before with the same row -- the
    same balance in particular, also when the statement writes or deletes
    a transaction of that account. *)
Theorem only_account_writes_change_accounts db (s : statement) db' :
  execute db s = Ok db' ->
  (forall id a, s <> InsertAccount id a) ->
  (forall id a, s <> UpdateAccount id a) ->
  accounts db' ⊆ accounts db.
Proof.
  intros He Hi Hu.
  assert (forall dU dA0 dC0 dT0 dB0,
            accounts (cascade_delete db dU dA0 dC0 dT0 dB0) ⊆ accounts db) as Hd.
  { intros. apply cascade_delete_subseteq. }
  destruct s; simpl in He;
    try (injection He as <-; by apply Hd);
    try (by edestruct Hi); try (by edestruct Hu).
  - apply insert_user_inv in He as (? & _ & ->). done.
  - unfold update_user in He. case_bool_decide; inv_result; done.
  - apply insert_category_inv in He as (? & _ & ->). done.
  - unfold update_category in He. case_bool_decide; inv_result; done.
  - apply insert_transaction_inv in He as (? & _ & ->). done.
  - unfold update_transaction in He. case_bool_decide; inv_result; done.
  - apply insert_budget_inv in He as (? & _ & ->). done.
  - unfold update_budget in He. case_bool_decide; inv_result; done.
Qed.

Lemma only_account_writes_change_accounts_witness :
  accounts (put_transaction budget_db 21%N purchase) ⊆ accounts budget_db.
Proof.
  apply (only_account_writes_change_accounts budget_db
           (InsertTransaction 21%N purchase)
           (put_transaction budget_db 21%N purchase));
    [by vm_compute | discriminate | discriminate].
Defined.

(** X16.  An UPDATE never adds or removes a row: after an accepted UPDATE
    every table holds the same keys as before, whether or not the updated
    key exists. *)
Theorem update_keeps_the_keys db (s : statement) db' :
  execute db s = Ok db' ->
  (exists id u, s = UpdateUser id u) \/ (exists id a, s = UpdateAccount id a) \/
  (exists id c, s = UpdateCategory id c) \/
  (exists id x, s = UpdateTransaction id x) \/ (exists id b, s = UpdateBudget id b) ->
  dom (users db') = dom (users db) /\
  dom (accounts db') = dom (accounts db) /\
  dom (transaction_categories db') = dom (transaction_categories db) /\
  dom (transactions db') = dom (transactions db) /\
  dom (budgets db') = dom (budgets db).
Proof.
  assert (forall A (m : gmap UUID A) i x,
            is_Some (m !! i) -> dom (<[i := x]> m) = dom m) as Hdom.
  { intros A m i x Hi. rewrite dom_insert_L.
    apply elem_of_dom in Hi. set_solver. }
  intros He [(id & r & ->)|[(id & r & ->)|[(id & r & ->)|[(id & r & ->)|(id & r & ->)]]]];
    simpl in He.
  - unfold update_user in He. case_bool_decide; inv_result; simpl; [|done].
    by rewrite Hdom.
  - unfold update_account in He. case_bool_decide; inv_result; simpl; [|done].
    by rewrite Hdom.
  - unfold update_category in He. case_bool_decide; inv_result; simpl; [|done].
    by rewrite Hdom.
  - unfold update_transaction in He. case_bool_decide; inv_result; simpl; [|done].
    by rewrite Hdom.
  - unfold update_budget in He. case_bool_decide; inv_result; simpl; [|done].
    by rewrite Hdom.
Qed.

Lemma update_keeps_the_keys_witness :
  dom (users (put_user one_user_db 1%N alice_again)) = dom (users one_user_db) /\
  dom (accounts (put_user one_user_db 1%N alice_again)) = dom (accounts one_user_db) /\
  dom (transaction_categories (put_user one_user_db 1%N alice_again))
  = dom (transaction_categories one_user_db) /\
  dom (transactions (put_user one_user_db 1%N alice_again))
  = dom (transactions one_user_db) /\
  dom (budgets (put_user one_user_db 1%N alice_again)) = dom (budgets one_user_db).
Proof.
  apply (update_keeps_the_keys one_user_db (UpdateUser 1%N alice_again)
           (put_user one_user_db 1%N alice_again)).
  - by vm_compute.
  - left. by exists 1%N, alice_again.
Defined.

(** ** String columns *)

Lemma coerce_user_fits u u' :
  coerce_user u = Ok u' ->
  fits 255 (User.email u') /\ fits 255 (User.hashed_password u') /\
  fits 255 (User.full_name u').
Proof.
  intros H. apply coerce_user_Ok in H as (H1 & H2 & H3).
  apply String_n_Ok in H1 as [? _]. apply String_n_Ok in H2 as [? _].
  apply String_n_Ok in H3 as [? _]. done.
Qed.

Lemma coerce_account_fits a a' :
  coerce_account a = Ok a' ->
  fits 255 (Account.name a') /\ fits 3 (Account.currency a').
Proof.
  intros H. apply coerce_account_Ok in H as (_ & H1 & _ & _ & H2 & _).
  apply String_n_Ok in H1 as [? _]. apply String_n_Ok in H2 as [? _]. done.
Qed.

Lemma coerce_category_fits c c' :
  coerce_category c = Ok c' ->
  fits 100 (TransactionCategory.name c') /\
  opt_fits 7 (TransactionCategory.color c') /\
  opt_fits 50 (TransactionCategory.icon c').
Proof.
  intros H. apply coerce_category_Ok in H as (_ & H1 & _ & H2 & H3 & _).
  apply String_n_Ok in H1 as [? _]. apply opt_String_n_Ok in H2 as [? _].
  apply opt_String_n_Ok in H3 as [? _]. done.
Qed.

Lemma coerce_transaction_fits x x' :
  coerce_transaction x = Ok x' -> fits 255 (Transaction.description x').
Proof.
  intros H. apply coerce_transaction_Ok in H as (_ & _ & _ & _ & H1 & _).
  by apply String_n_Ok in H1 as [? _].
Qed.

Lemma put_user_strings_fit db id u :
  strings_fit db ->
  fits 255 (User.email u) /\ fits 255 (User.hashed_password u) /\
  fits 255 (User.full_name u) ->
  strings_fit (put_user db id u).
Proof.
  intros [] Hu. constructor; simpl; eauto.
  intros i v Hi. split_insert Hi; eauto.
Qed.

Lemma put_account_strings_fit db id a :
  strings_fit db ->
  fits 255 (Account.name a) /\ fits 3 (Account.currency a) ->
  strings_fit (put_account db id a).
Proof.
  intros [] Ha. constructor; simpl; eauto.
  intros i v Hi. split_insert Hi; eauto.
Qed.

Lemma put_category_strings_fit db id c :
  strings_fit db ->
  fits 100 (TransactionCategory.name c) /\
  opt_fits 7 (TransactionCategory.color c) /\
  opt_fits 50 (TransactionCategory.icon c) ->
  strings_fit (put_category db id c).
Proof.
  intros [] Ha. constructor; simpl; eauto.
  intros i v Hi. split_insert Hi; eauto.
Qed.

Lemma put_transaction_strings_fit db id x :
  strings_fit db -> fits 255 (Transaction.description x) ->
  strings_fit (put_transaction db id x).
Proof.
  intros [] Ha. constructor; simpl; eauto.
  intros i v Hi. split_insert Hi; eauto.
Qed.

Lemma put_budget_strings_fit db id b :
  strings_fit db -> strings_fit (put_budget db id b).
Proof. by intros []. Qed.

Lemma execute_strings_fit db s db' :
  strings_fit db -> execute db s = Ok db' -> strings_fit db'.
Proof.
  intros Hf He.
  assert (forall dU dA0 dC0 dT0 dB0,
            strings_fit (cascade_delete db dU dA0 dC0 dT0 dB0)) as Hd.
  { intros. destruct Hf. unfold cascade_delete. constructor; simpl.
    - intros i u Hi. apply filter_not_in_Some in Hi as [Hi _]. eauto.
    - intros i a Hi. apply filter_not_in_Some in Hi as [Hi _]. eauto.
    - intros i c Hi. apply filter_not_in_Some in Hi as [Hi _]. eauto.
    - intros i y Hy. apply lookup_fmap_Some in Hy as (x & <- & Hx).
      apply filter_not_in_Some in Hx as [Hx _]. simpl. eauto. }
  destruct s; simpl in He; try (injection He as <-; by apply Hd).
  - apply insert_user_Ok in He as (u' & Hco & _ & _ & ->).
    eauto using put_user_strings_fit, coerce_user_fits.
  - apply update_user_Ok in He as (u' & Hco & [(_ & _ & ->)|(_ & ->)]); [|done].
    eauto using put_user_strings_fit, coerce_user_fits.
  - apply insert_account_Ok in He as (a' & Hco & _ & _ & ->).
    eauto using put_account_strings_fit, coerce_account_fits.
  - apply update_account_Ok in He as (a' & Hco & [(_ & _ & ->)|(_ & ->)]); [|done].
    eauto using put_account_strings_fit, coerce_account_fits.
  - apply insert_category_Ok in He as (c' & Hco & _ & _ & ->).
    eauto using put_category_strings_fit, coerce_category_fits.
  - apply update_category_Ok in He as (c' & Hco & [(_ & _ & ->)|(_ & ->)]); [|done].
    eauto using put_category_strings_fit, coerce_category_fits.
  - apply insert_transaction_Ok in He as (x' & Hco & _ & _ & ->).
    eauto using put_transaction_strings_fit, coerce_transaction_fits.
  - apply update_transaction_Ok in He as (x' & Hco & [(_ & _ & ->)|(_ & ->)]);
      [|done].
    eauto using put_transaction_strings_fit, coerce_transaction_fits.
  - apply insert_budget_Ok in He as (b' & _ & _ & _ & ->).
    by apply put_budget_strings_fit.
  - apply update_budget_Ok in He as (b' & _ & [(_ & _ & ->)|(_ & ->)]); [|done].
    by apply put_budget_strings_fit.
Qed.

Lemma reachable_strings_fit db : reachable db -> strings_fit db.
Proof.
  intros [ss H]. revert db H.
  assert (forall ss db0 db, strings_fit db0 -> run db0 ss = Ok db -> strings_fit db)
    as Hrun.
  { clear. induction ss as [|s ss IH]; simpl; intros db0 db Hf H.
    - by injection H as <-.
    - apply bind_Ok in H as (db1 & H1 & H). eauto using execute_strings_fit. }
  intros db H. eapply Hrun; [|done].
  constructor; simpl; intros *; by rewrite lookup_empty.
Qed.

(** X17.  In every reachable state every stored string is within the
    length its column declares: 255 characters for e-mail, password hash,
    full name, account name and description, 3 for the currency code, 100
    for a category name, 7 for a colour and 50 for an icon. *)
Theorem stored_strings_fit_their_columns db :
  reachable db ->
  (forall i u, users db !! i = Some u ->
     (String.length (User.email u) <= 255)%nat /\
     (String.length (User.hashed_password u) <= 255)%nat /\
     (String.length (User.full_name u) <= 255)%nat) /\
  (forall i a, accounts db !! i = Some a ->
     (String.length (Account.name a) <= 255)%nat /\
     (String.length (Account.currency a) <= 3)%nat) /\
  (forall i c, transaction_categories db !! i = Some c ->
     (String.length (TransactionCategory.name c) <= 100)%nat /\
     (forall s, TransactionCategory.color c = Some s -> (String.length s <= 7)%nat) /\
     (forall s, TransactionCategory.icon c = Some s -> (String.length s <= 50)%nat)) /\
  (forall i x, transactions db !! i = Some x ->
     (String.length (Transaction.description x) <= 255)%nat).
Proof.
  intros Hr. apply reachable_strings_fit in Hr.
  split; [|split; [|split]].
  - intros i u Hi. exact (users_fit db Hr i u Hi).
  - intros i a Hi. exact (accounts_fit db Hr i a Hi).
  - intros i c Hi. exact (categories_fit db Hr i c Hi).
  - intros i x Hi. exact (transactions_fit db Hr i x Hi).
Qed.

Lemma stored_strings_fit_their_columns_witness :
  (String.length (Account.name account_A) <= 255)%nat /\
  (String.length (Account.currency account_A) <= 3)%nat.
Proof.
  destruct (stored_strings_fit_their_columns budget_db budget_db_reachable)
    as (_ & H & _).
  exact (H 5%N account_A eq_refl).
Defined.

(** ** Writing a row back *)

(** X18.  In a reachable state, an UPDATE that writes a stored row back
    unchanged is always accepted and leaves the state exactly as it is,
    for each of the five tables: stored strings fit their columns, stored
    amounts are not rounded again, and the stored references and e-mail
    still satisfy their constraints. *)
Theorem update_with_the_stored_row_changes_nothing db (id : UUID) :
  reachable db ->
  (forall u, users db !! id = Some u -> update_user db id u = Ok db) /\
  (forall a, accounts db !! id = Some a -> update_account db id a = Ok db) /\
  (forall c, transaction_categories db !! id = Some c ->
             update_category db id c = Ok db) /\
  (forall x, transactions db !! id = Some x -> update_transaction db id x = Ok db) /\
  (forall b, budgets db !! id = Some b -> update_budget db id b = Ok db).
Proof.
  intros Hr. pose proof (reachable_strings_fit db Hr) as Hf.
  apply reachable_consistent in Hr. split; [|split; [|split; [|split]]].
  - intros u Hi. apply update_user_Ok. exists u.
    destruct (users_fit db Hf id u Hi) as (? & ? & ?).
    split; [by apply coerce_user_fits_Ok|]. left. split; [by eexists|]. split.
    + intros k r Hk.
      destruct (decide (User.email r = User.email u)) as [He|]; [|by right].
      left. exact (users_email_unique db Hr k id r u Hk Hi He).
    + unfold put_user. rewrite insert_id by done. by rewrite DB_eta.
  - intros a Hi. apply update_account_Ok. exists a.
    destruct (accounts_fit db Hf id a Hi) as (? & ?).
    split.
    { apply coerce_account_stored; [done|done|].
      exact (accounts_balance_numeric db Hr id a Hi). }
    left. split; [by eexists|]. split; [exact (accounts_user_fk db Hr id a Hi)|].
    unfold put_account. rewrite insert_id by done. by rewrite DB_eta.
  - intros c Hi. apply update_category_Ok. exists c.
    destruct (categories_fit db Hf id c Hi) as (? & ? & ?).
    split; [by apply coerce_category_fits_Ok|]. left. split; [by eexists|]. split.
    + apply constraints_category_Ok. split.
      * intros u Hu. exact (categories_user_fk db Hr id c u Hi Hu).
      * intros p Hp. apply is_Some_insert.
        exact (categories_parent_fk db Hr id c p Hi Hp).
    + unfold put_category. rewrite insert_id by done. by rewrite DB_eta.
  - intros x Hi. apply update_transaction_Ok. exists x.
    split.
    { apply coerce_transaction_stored;
        [exact (transactions_fit db Hf id x Hi)
        |exact (transactions_amount_numeric db Hr id x Hi)]. }
    left. split; [by eexists|]. split.
    + apply constraints_transaction_Ok.
      split; [exact (transactions_account_fk db Hr id x Hi)|]. split.
      * intros c Hc. exact (transactions_category_fk db Hr id x c Hi Hc).
      * intros l Hl. apply is_Some_insert.
        exact (transactions_linked_fk db Hr id x l Hi Hl).
    + unfold put_transaction. rewrite insert_id by done. by rewrite DB_eta.
  - intros b Hi. apply update_budget_Ok. exists b.
    split.
    { apply coerce_budget_stored. exact (budgets_amount_numeric db Hr id b Hi). }
    left. split; [by eexists|]. split.
    + apply constraints_budget_Ok.
      split; [exact (budgets_user_fk db Hr id b Hi)
             |exact (budgets_category_fk db Hr id b Hi)].
    + unfold put_budget. rewrite insert_id by done. by rewrite DB_eta.
Qed.

Lemma update_with_the_stored_row_changes_nothing_witness :
  update_transaction transfer_db 20%N (leg_A (Some 21%N)) = Ok transfer_db.
Proof.
  destruct (update_with_the_stored_row_changes_nothing transfer_db 20%N
              transfer_db_reachable) as (_ & _ & _ & H & _).
  exact (H (leg_A (Some 21%N)) eq_refl).
Defined.

(** ** Numeric(15, 2) *)

(** X19.  A value with at most two fractional digits is stored without
    any change of value when it has at most 13 integer digits (fewer than
    10^15 hundredths), and is rejected with a [DataError] otherwise. *)
Theorem Numeric_15_2_exact_or_rejected t c (m e : Z) :
  0 <= e + 2 ->
  (Z.abs m * 10 ^ (e + 2) < 10 ^ 15 ->
   Numeric_15_2 t c (mkDecimal m e) = Ok (mkDecimal (m * 10 ^ (e + 2)) (-2))) /\
  (10 ^ 15 <= Z.abs m * 10 ^ (e + 2) ->
   Numeric_15_2 t c (mkDecimal m e) = Err (DataError t c)).
Proof.
  intros He.
  assert (Z.abs (hundredths m e) = Z.abs m * 10 ^ (e + 2)) as Habs.
  { rewrite hundredths_exact by done. rewrite Z.abs_mul. f_equal.
    apply Z.abs_eq. apply Z.pow_nonneg. lia. }
  unfold Numeric_15_2. rewrite Habs. rewrite hundredths_exact by done. split.
  - intros Hlt. by rewrite (proj2 (Z.ltb_lt _ _) Hlt).
  - intros Hge. by rewrite (proj2 (Z.ltb_ge _ _) Hge).
Qed.

Lemma Numeric_15_2_exact_or_rejected_witness :
  Numeric_15_2 "accounts" "balance" (mkDecimal 5 1)
  = Ok (mkDecimal 5000 (-2)) /\
  Numeric_15_2 "accounts" "balance" (mkDecimal 1 13)
  = Err (DataError "accounts" "balance").
Proof.
  split.
  - apply (Numeric_15_2_exact_or_rejected "accounts" "balance" 5 1);
      by vm_compute.
  - apply (Numeric_15_2_exact_or_rejected "accounts" "balance" 1 13);
      by vm_compute.
Defined.

(** X20.  A value with more than two fractional digits is stored as a
    nearest hundredth: the stored number of hundredths differs from the
    value by at most half a hundredth. *)
Theorem hundredths_rounds_to_nearest (m e : Z) :
  e + 2 < 0 ->
  2 * Z.abs (hundredths m e * 10 ^ (- (e + 2)) - m) <= 10 ^ (- (e + 2)).
Proof.
  intros He. unfold hundredths.
  rewrite (proj2 (Z.leb_gt _ _) He).
  set (q := 10 ^ (- (e + 2))).
  assert (0 < q) as Hq by (apply Z.pow_pos_nonneg; lia).
  set (n := Z.abs m).
  assert (0 <= n) as Hn by apply Z.abs_nonneg.
  pose proof (Z.div_mod (2 * n + q) (2 * q) ltac:(lia)) as Hdm.
  pose proof (Z.mod_pos_bound (2 * n + q) (2 * q) ltac:(lia)) as Hb.
  set (h := (2 * n + q) / (2 * q)) in *.
  set (r := (2 * n + q) mod (2 * q)) in *.
  assert (2 * Z.abs (h * q - n) <= q) as Hmain by lia.
  destruct (Z.sgn_spec m) as [[Hs ->]|[[Hs ->]|[Hs ->]]].
  - assert (n = m) as Hn' by (unfold n; lia).
    replace (1 * h * q) with (h * q) by ring. lia.
  - assert (n = 0) as Hn' by (unfold n; lia).
    replace (0 * h * q) with 0 by ring. lia.
  - assert (n = - m) as Hn' by (unfold n; lia).
    replace (-1 * h * q) with (- (h * q)) by ring. lia.
Qed.

Lemma hundredths_rounds_to_nearest_witness :
  2 * Z.abs (hundredths 12345 (-3) * 10 ^ (- (-3 + 2)) - 12345)
  <= 10 ^ (- (-3 + 2)).
Proof. apply (hundredths_rounds_to_nearest 12345 (-3)). by vm_compute. Defined.

(** ** The enumerations *)

Lemma by_value_Some {E} (members : list E) (value : E -> string) s t :
  by_value members value s = Some t -> value t = s.
Proof.
  unfold by_value. intros H. apply List.find_some in H as [_ H].
  by apply bool_decide_eq_true in H.
Qed.

(** X21.  For each of the four enumerations, looking a member up by value
    is the inverse of taking its value: the lookup of a string returns a
    member exactly when that member carries the string, so every member
    is found again from its value (no two members share one) and every
    other string is refused. *)
Theorem enum_lookup_by_value :
  (forall s t, AccountType_of_value s = Some t <-> AccountType_value t = s) /\
  (forall s t, CategoryType_of_value s = Some t <-> CategoryType_value t = s) /\
  (forall s t, TransactionType_of_value s = Some t <-> TransactionType_value t = s) /\
  (forall s t, BudgetPeriod_of_value s = Some t <-> BudgetPeriod_value t = s).
Proof.
  repeat split; try apply by_value_Some; intros <-; by destruct t.
Qed.

(** X22.  Every category type has a transaction type with the same
    value, and "transfer" is the one transaction type that no category
    type matches. *)
Theorem category_types_match_transaction_types :
  (forall c, exists t, TransactionType_value t = CategoryType_value c) /\
  (forall t, (exists c, CategoryType_value c = TransactionType_value t)
             <-> t <> TRANSFER).
Proof.
  split.
  - intros []; [by exists INCOME|by exists EXPENSE].
  - intros t. split.
    + intros [c Hc] ->. by destruct c.
    + intros Hne. destruct t; [by exists CategoryType_INCOME
                              |by exists CategoryType_EXPENSE|done].
Qed.

(** ** INSERT and lookup *)

(** X23.  An accepted INSERT of a transaction adds exactly one row.  The
    new key holds the given transaction as its columns store it: a finite
    amount brought to two fractional digits and a NaN amount as NaN, the
    description as given when it is within 255 characters and within 255
    characters in any case, and every other column as given -- hence the
    very row given, when its amount is a value of the column already and
    its description is within 255 characters.  Every other transaction
    is as before, and no other table changes -- no balance in
    particular. *)
Theorem insert_transaction_adds_one_row db (id : UUID) (x : Transaction.t) db' :
  insert_transaction db id x = Ok db' ->
  (exists y, transactions db' !! id = Some y /\
     Transaction.account_id y = Transaction.account_id x /\
     Transaction.category_id y = Transaction.category_id x /\
     Transaction.transaction_type y = Transaction.transaction_type x /\
     Transaction.transaction_date y = Transaction.transaction_date x /\
     Transaction.notes y = Transaction.notes x /\
     Transaction.linked_transaction_id y = Transaction.linked_transaction_id x /\
     (forall m e, Transaction.amount x = mkDecimal m e ->
                  Transaction.amount y = mkDecimal (hundredths m e) (-2)) /\
     (Transaction.amount x = NaN -> Transaction.amount y = NaN) /\
     (String.length (Transaction.description y) <= 255)%nat /\
     ((String.length (Transaction.description x) <= 255)%nat ->
      Transaction.description y = Transaction.description x)) /\
  ((Transaction.amount x = NaN \/ is_Numeric_15_2 (Transaction.amount x)) ->
   (String.length (Transaction.description x) <= 255)%nat ->
   transactions db' !! id = Some x) /\
  (forall j, j <> id -> transactions db' !! j = transactions db !! j) /\
  users db' = users db /\ accounts db' = accounts db /\
  transaction_categories db' = transaction_categories db /\
  budgets db' = budgets db.
Proof.
  intros H. apply insert_transaction_Ok in H as (y & Hco & _ & _ & ->).
  simpl. rewrite lookup_insert_eq. split; [|split].
  - exists y. split; [done|].
    pose proof Hco as Hco'.
    apply coerce_transaction_Ok in Hco' as (E1 & E2 & Ha & E3 & Hd & E4 & E5 & E6).
    apply String_n_Ok in Hd as [Hd1 Hd2].
    do 6 (split; [done|]). split; [|split; [|by split]].
    + intros m e E. rewrite E in Ha.
      by apply (Numeric_15_2_Ok "transactions" "amount") in Ha as [_ ->].
    + intros E. rewrite E in Ha. simpl in Ha. by injection Ha as <-.
  - intros Hn Hd. f_equal.
    rewrite coerce_transaction_stored in Hco by done. by injection Hco as <-.
  - split; [|done]. intros j Hj. by rewrite lookup_insert_ne.
Qed.

Lemma insert_transaction_adds_one_row_witness :
  transactions (put_transaction budget_db 21%N purchase) !! 21%N = Some purchase.
Proof.
  apply (insert_transaction_adds_one_row budget_db 21%N purchase
           (put_transaction budget_db 21%N purchase));
    [by vm_compute | right; by vm_compute | vm_compute; lia].
Defined.

(** ** Deleting a leaf row *)

(** X24.  Transactions and budgets own nothing: deleting a transaction
    removes that one key from the transactions table and deleting a
    budget removes that one row from the budgets table, and neither
    touches any other table. *)
Theorem leaf_deletes_remove_one_row db (id : UUID) :
  (users (delete_transaction db id) = users db /\
   accounts (delete_transaction db id) = accounts db /\
   transaction_categories (delete_transaction db id) = transaction_categories db /\
   budgets (delete_transaction db id) = budgets db /\
   dom (transactions (delete_transaction db id)) = dom (transactions db) ∖ {[id]}) /\
  delete_budget db id
  = mkDB (users db) (accounts db) (transaction_categories db) (transactions db)
         (delete id (budgets db)).
Proof.
  split; [|apply delete_budget_eq].
  rewrite delete_transaction_eq. simpl. do 4 (split; [done|]).
  by rewrite dom_fmap_L, dom_delete_L.
Qed.
